(** * The article repository over a DynamoDB table

    A shallow embedding of [internal/adapters/repository/dynamodb/dynamodb.go]:
    the eight methods of [dynamodbClient], run against a model of the Go heap
    (the [*domain.Article] cells callers pass in and receive), of one DynamoDB
    table, and of the failures the store client can report.

    Layout: the data model (attribute values, articles, errors), the
    marshaller, the world and its monad, the store client, the repository
    methods, and then the theorems about them. *)

From stdpp Require Import gmap strings list fin_maps.

Set Warnings "-register-all".
Open Scope string_scope.

(** ** Store items *)

(** [dynamodb.AttributeValue], restricted to the four shapes an article item
    uses: a string, the NULL marker, a list and a map. *)
Inductive AttributeValue :=
| AvS (s : string)
| AvNULL
| AvL (l : list AttributeValue)
| AvM (m : gmap string AttributeValue).

(** An item is [map[string]*dynamodb.AttributeValue]. *)
Abbreviation Item := (gmap string AttributeValue).

(** ** Domain records *)

(** Modelled from the spec: [domain.Article]'s embedded author reference is
    declared in [internal/core/domain], outside this package. The spec gives
    it an author id and display metadata; the code reads
    the id as [article.Author.ID]. The display metadata is kept as one text
    field. *)
Record AuthorInfo := mkAuthorInfo {
  ID : string;
  DisplayName : string
}.

(** Modelled from the spec: [domain.Article] is declared in
    [internal/core/domain], outside this package. The fields follow section 3 of the spec and the attribute names
    [GetArticles] projects; the code reads [ArticleID] and [Author] by these
    names. The publish date is carried as its timestamp text, the form it has
    in the store. A Go slice that is nil and one that is empty are both the
    empty list. *)
Record Article := mkArticle {
  ArticleID : string;
  Title : string;
  Subtitle : string;
  Introduction : string;
  Body : string;
  Tags : list string;
  PublishDate : string;
  Author : AuthorInfo
}.

(** [domain.Article{}], the zero value. *)
Definition zeroAuthorInfo : AuthorInfo := mkAuthorInfo "" "".
Definition zeroArticle : Article :=
  mkArticle "" "" "" "" "" [] "" zeroAuthorInfo.

(** ** Errors *)

(** The values of Go's [error] interface that reach this package:
    [errors.New], the client's [awserr.Error] (code and message), and the
    decoder's [dynamodbattribute.UnmarshalTypeError]. *)
Inductive error :=
| errorString (msg : string)
| awsError (code message : string)
| UnmarshalTypeError (value goType : string).

Global Instance error_eq_dec : EqDecision error.
Proof. solve_decision. Defined.

(** [err.Error()], as [%v] prints it. *)
Definition Error (e : error) : string :=
  match e with
  | errorString msg => msg
  | awsError code message => code ++ ": " ++ message
  | UnmarshalTypeError value goType =>
      "UnmarshalTypeError: cannot unmarshal " ++ value ++ " into Go value of type " ++ goType
  end.

(** ** The marshaller: [dynamodbattribute.MarshalMap] and [UnmarshalMap]

    The encoder runs with its defaults: an empty string and an empty slice
    are written as NULL, a struct as a map of its fields under their tag
    names. The decoder reads NULL and a missing attribute as the zero value
    and refuses an attribute of another shape than the field's type. Field
    names are matched exactly. *)
Module dynamodbattribute.

Definition encodeString (s : string) : AttributeValue :=
  if decide (s = "") then AvNULL else AvS s.

Definition encodeStrings (l : list string) : AttributeValue :=
  match l with
  | [] => AvNULL
  | _ => AvL (encodeString <$> l)
  end.

Definition encodeAuthorInfo (a : AuthorInfo) : AttributeValue :=
  AvM (<["author_id" := encodeString (ID a)]>
       (<["display_name" := encodeString (DisplayName a)]> ∅)).

Definition encodeArticle (a : Article) : Item :=
  <["article_id" := encodeString (ArticleID a)]>
  (<["title" := encodeString (Title a)]>
  (<["subtitle" := encodeString (Subtitle a)]>
  (<["introduction" := encodeString (Introduction a)]>
  (<["body" := encodeString (Body a)]>
  (<["tags" := encodeStrings (Tags a)]>
  (<["publish_date" := encodeString (PublishDate a)]>
  (<["author_info" := encodeAuthorInfo (Author a)]> ∅))))))).

(** [MarshalMap(in)]: a nil pointer encodes to NULL, for which the
    function hands back an empty map and no error. *)
Definition MarshalMap (v : option Article) : Item * option error :=
  match v with
  | None => (∅, None)
  | Some a => (encodeArticle a, None)
  end.

Definition avKind (av : AttributeValue) : string :=
  match av with
  | AvS _ => "string"
  | AvNULL => "null"
  | AvL _ => "list"
  | AvM _ => "map"
  end.

Definition decodeString (av : option AttributeValue) : string + error :=
  match av with
  | None | Some AvNULL => inl ""
  | Some (AvS s) => inl s
  | Some av => inr (UnmarshalTypeError (avKind av) "string")
  end.

Fixpoint decodeElems (l : list AttributeValue) : list string + error :=
  match l with
  | [] => inl []
  | av :: rest =>
      match decodeString (Some av) with
      | inr e => inr e
      | inl s =>
          match decodeElems rest with
          | inr e => inr e
          | inl ss => inl (s :: ss)
          end
      end
  end.

Definition decodeStrings (av : option AttributeValue) : list string + error :=
  match av with
  | None | Some AvNULL => inl []
  | Some (AvL l) => decodeElems l
  | Some av => inr (UnmarshalTypeError (avKind av) "[]string")
  end.

Definition decodeAuthorInfo (av : option AttributeValue) : AuthorInfo + error :=
  match av with
  | None | Some AvNULL => inl zeroAuthorInfo
  | Some (AvM m) =>
      match decodeString (m !! "author_id") with
      | inr e => inr e
      | inl id =>
          match decodeString (m !! "display_name") with
          | inr e => inr e
          | inl dn => inl (mkAuthorInfo id dn)
          end
      end
  | Some av => inr (UnmarshalTypeError (avKind av) "domain.AuthorInfo")
  end.

(** [UnmarshalMap(item, &article)] into a fresh [article]: the decoded
    record, or the error. *)
Definition UnmarshalMap (item : Item) : Article + error :=
  match decodeString (item !! "article_id") with inr e => inr e | inl aid =>
  match decodeString (item !! "title") with inr e => inr e | inl ti =>
  match decodeString (item !! "subtitle") with inr e => inr e | inl su =>
  match decodeString (item !! "introduction") with inr e => inr e | inl intro =>
  match decodeString (item !! "body") with inr e => inr e | inl bo =>
  match decodeStrings (item !! "tags") with inr e => inr e | inl tg =>
  match decodeString (item !! "publish_date") with inr e => inr e | inl pd =>
  match decodeAuthorInfo (item !! "author_info") with inr e => inr e | inl au =>
    inl (mkArticle aid ti su intro bo tg pd au)
  end end end end end end end end.

End dynamodbattribute.

(** ** The world: Go heap and DynamoDB table *)

(** A [*domain.Article] is nil or the address of a cell of the heap. *)
Definition loc := nat.
Abbreviation ptr := (option loc).

(** Expressions of the store, as syntax trees with the [#name] and [:value]
    placeholders already resolved: the filter of [GetArticles], and the key
    condition and filter of [GetArticlesByTag], whose operand is a string. *)
Inductive Condition :=
| AttributeNotExists (name : string)
| Equal (name : string) (operand : string)
| Contains (name : string) (operand : string).

Record PutItemInput := mkPutItemInput {
  PutItem_Item : Item;
  PutItem_TableName : string
}.

Record GetItemInput := mkGetItemInput {
  GetItem_TableName : string;
  GetItem_Key : Item
}.

Record DeleteItemInput := mkDeleteItemInput {
  DeleteItem_Key : Item;
  DeleteItem_TableName : string
}.

Record ScanInput := mkScanInput {
  Scan_FilterExpression : option Condition;
  Scan_ProjectionExpression : option (list string);
  Scan_TableName : string
}.

Record QueryInput := mkQueryInput {
  Query_TableName : string;
  Query_IndexName : string;
  Query_KeyConditionExpression : Condition;
  Query_FilterExpression : Condition
}.

Inductive Request :=
| ReqPutItem (input : PutItemInput)
| ReqGetItem (input : GetItemInput)
| ReqDeleteItem (input : DeleteItemInput)
| ReqScan (input : ScanInput)
| ReqQuery (input : QueryInput).

(** The world a method runs in.
    - [heap]: the [domain.Article] cells allocated so far; a pointer is an
      index into it and allocation appends.
    - [table]: the items of the table [db.tablename] names, by their
      [article_id] key.
    - [faults]: what the network and the back end do to the coming requests,
      one entry per request in order: [Some e] makes the request fail with
      [e] and leave the table alone, [None] lets it through; past the end of
      the list every request goes through.
    - [requests]: the requests sent so far, oldest first.
    - [scan_page]: how many items the store reads for one Scan request
      before it stops and hands back a continuation key. *)
Record World := mkWorld {
  heap : list Article;
  table : gmap string Item;
  faults : list (option error);
  requests : list Request;
  scan_page : nat
}.

Definition set_heap (h : list Article) (w : World) : World :=
  mkWorld h (table w) (faults w) (requests w) (scan_page w).
Definition set_table (t : gmap string Item) (w : World) : World :=
  mkWorld (heap w) t (faults w) (requests w) (scan_page w).
Definition set_faults (f : list (option error)) (w : World) : World :=
  mkWorld (heap w) (table w) f (requests w) (scan_page w).
Definition set_requests (r : list Request) (w : World) : World :=
  mkWorld (heap w) (table w) (faults w) r (scan_page w).

(** What the request sent next will meet. *)
Definition next_fault (w : World) : option error :=
  default None (head (faults w)).

(** How a call ends: it returns, the process exits ([log.Fatalf] prints
    [output] and calls [os.Exit(1)]), or the goroutine panics. *)
Inductive Outcome (A : Type) :=
| Returned (a : A) (w : World)
| Exited (status : Z) (output : string) (w : World)
| Panicked (msg : string) (w : World).
Arguments Returned {A} a w.
Arguments Exited {A} status output w.
Arguments Panicked {A} msg w.

Definition M (A : Type) : Type := World → Outcome A.

Global Instance M_ret : MRet M := λ A a w, Returned a w.
Global Instance M_bind : MBind M := λ A B f c w,
  match c w with
  | Returned a w' => f a w'
  | Exited status output w' => Exited status output w'
  | Panicked msg w' => Panicked msg w'
  end.

Definition get_world : M World := λ w, Returned w w.
Definition modify_world (f : World → World) : M unit := λ w, Returned () (f w).

(** The world a call leaves behind, however it ended. *)
Definition final {A} (o : Outcome A) : World :=
  match o with
  | Returned _ w | Exited _ _ w | Panicked _ w => w
  end.

(** A runtime panic; the one that can occur here is the nil dereference. *)
Definition panic {A} (msg : string) : M A := λ w, Panicked msg w.
Definition nil_dereference : string :=
  "invalid memory address or nil pointer dereference".

(** [&domain.Article{...}]: a fresh cell. *)
Definition new_Article (a : Article) : M loc := λ w,
  Returned (length (heap w)) (set_heap (heap w ++ [a]) w).

(** [*p] for a non-nil [p]. *)
Definition load (l : loc) : M Article := λ w,
  match heap w !! l with
  | Some a => Returned a w
  | None => Panicked nil_dereference w
  end.

(** [p.Field]: a nil [p] panics. *)
Definition deref (p : ptr) : M Article :=
  match p with
  | None => panic nil_dereference
  | Some l => load l
  end.

(** [log.Fatalf(format, ...)], the message already formatted. *)
Definition log_Fatalf {A} (output : string) : M A := λ w, Exited 1 output w.

(** ** The expression builder: package [expression] *)
Module expression.

Record Builder := mkBuilder {
  filter : option Condition;
  projection : option (list string)
}.

Record Expression := mkExpression {
  Filter : option Condition;
  Projection : option (list string)
}.

Definition NewBuilder : Builder := mkBuilder None None.
Definition WithFilter (c : Condition) (b : Builder) : Builder :=
  mkBuilder (Some c) (projection b).
Definition WithProjection (names : list string) (b : Builder) : Builder :=
  mkBuilder (filter b) (Some names).

(** [Build] refuses a builder on which nothing was set. *)
Definition Build (b : Builder) : Expression * option error :=
  match filter b, projection b with
  | None, None =>
      (mkExpression None None, Some (errorString "unset parameter: Builder"))
  | f, p => (mkExpression f p, None)
  end.

End expression.

(** ** The store client: [dynamodb.DynamoDB] *)
Module dynamodb.

(** [s] occurs in [t]. *)
Fixpoint is_substring (s t : string) : bool :=
  String.prefix s t ||
  match t with
  | EmptyString => false
  | String _ t' => is_substring s t'
  end.

Definition is_S (operand : string) (av : AttributeValue) : bool :=
  match av with
  | AvS s => bool_decide (s = operand)
  | _ => false
  end.

(** Whether an item satisfies a condition. [contains] on a string looks
    for a substring, on a list for an equal element. *)
Definition holds (c : Condition) (item : Item) : bool :=
  match c with
  | AttributeNotExists name => bool_decide (item !! name = None)
  | Equal name operand =>
      match item !! name with
      | Some av => is_S operand av
      | None => false
      end
  | Contains name operand =>
      match item !! name with
      | Some (AvS s) => is_substring operand s
      | Some (AvL l) => existsb (is_S operand) l
      | _ => false
      end
  end.

Definition holds_opt (c : option Condition) (item : Item) : bool :=
  match c with
  | Some c => holds c item
  | None => true
  end.

(** The attributes of an item a projection keeps. *)
Definition project (p : option (list string)) (item : Item) : Item :=
  match p with
  | Some names => filter (λ kv, kv.1 ∈ names) item
  | None => item
  end.

(** The string under the table's key attribute [article_id], when the
    map has one the store accepts: a non-empty string. *)
Definition key_of (m : Item) : option string :=
  match m !! "article_id" with
  | Some (AvS k) => if decide (k = "") then None else Some k
  | _ => None
  end.

Definition ValidationException : error :=
  awsError "ValidationException" "One or more parameter values were invalid".

(** Sending a request: it is logged and meets the next entry of
    [faults]. *)
Definition sent (r : Request) (w : World) : World :=
  set_requests (requests w ++ [r]) (set_faults (tail (faults w)) w).
Definition send (r : Request) : M (option error) := λ w,
  Returned (next_fault w) (sent r w).

Record GetItemOutput := mkGetItemOutput { GetItem_Item : option Item }.
Record ScanOutput := mkScanOutput { Scan_Items : list Item }.
Record QueryOutput := mkQueryOutput { Query_Items : list Item }.

(** [PutItem]: the item replaces whatever the table holds under its
    key. *)
Definition PutItem (input : PutItemInput) : M (unit * option error) :=
  fault ← send (ReqPutItem input);
  match fault with
  | Some e => mret ((), Some e)
  | None =>
      match key_of (PutItem_Item input) with
      | None => mret ((), Some ValidationException)
      | Some k =>
          _ ← modify_world (λ w, set_table (<[k := PutItem_Item input]> (table w)) w);
          mret ((), None)
      end
  end.

(** [GetItem]: [Item] is nil in the output when the key has no item. *)
Definition GetItem (input : GetItemInput) : M (GetItemOutput * option error) :=
  fault ← send (ReqGetItem input);
  match fault with
  | Some e => mret (mkGetItemOutput None, Some e)
  | None =>
      match key_of (GetItem_Key input) with
      | None => mret (mkGetItemOutput None, Some ValidationException)
      | Some k =>
          w ← get_world;
          mret (mkGetItemOutput (table w !! k), None)
      end
  end.

(** [DeleteItem]: deleting a key that has no item is not an error. The
    client hands back a non-nil output in every case. *)
Definition DeleteItem (input : DeleteItemInput) : M (option unit * option error) :=
  fault ← send (ReqDeleteItem input);
  match fault with
  | Some e => mret (Some (), Some e)
  | None =>
      match key_of (DeleteItem_Key input) with
      | None => mret (Some (), Some ValidationException)
      | Some k =>
          _ ← modify_world (λ w, set_table (delete k (table w)) w);
          mret (Some (), None)
      end
  end.

(** The items one Scan request reads: the first [scan_page] of the table,
    in the store's order. *)
Definition scanned (w : World) : list Item :=
  take (scan_page w) (map_to_list (table w)).*2.

(** [Scan]: one page, filtered, each item cut down to the projection. *)
Definition Scan (input : ScanInput) : M (ScanOutput * option error) :=
  fault ← send (ReqScan input);
  match fault with
  | Some e => mret (mkScanOutput [], Some e)
  | None =>
      w ← get_world;
      mret (mkScanOutput
              (project (Scan_ProjectionExpression input) <$>
                 List.filter (holds_opt (Scan_FilterExpression input)) (scanned w)),
            None)
  end.

(** [Query] on a secondary index: the items that have the index key and
    meet the key condition, then the filter. *)
Definition Query (input : QueryInput) : M (QueryOutput * option error) :=
  fault ← send (ReqQuery input);
  match fault with
  | Some e => mret (mkQueryOutput [], Some e)
  | None =>
      w ← get_world;
      mret (mkQueryOutput
              (List.filter (holds (Query_FilterExpression input))
                 (List.filter (holds (Query_KeyConditionExpression input))
                    (map_to_list (table w)).*2)),
            None)
  end.

End dynamodb.

(** ** The repository: [dynamodbClient] and its methods *)

Record dynamodbClient := mkClient { tablename : string }.

(** The key map [{"article_id": {S: article_id}}] of a get or delete. *)
Definition key_map (article_id : string) : Item :=
  {["article_id" := AvS article_id]}.

(** [dynamodbattribute.MarshalMap(article)] on a pointer: the cell is
    read. *)
Definition MarshalMap_ptr (article : ptr) : M (Item * option error) :=
  match article with
  | None => mret (dynamodbattribute.MarshalMap None)
  | Some l => a ← load l; mret (dynamodbattribute.MarshalMap (Some a))
  end.

Definition CreateArticle (db : dynamodbClient) (article : ptr)
  : M (ptr * option error) :=
  '(entityParsed, err) ← MarshalMap_ptr article;
  match err with
  | Some e => mret (None, Some e)
  | None =>
      let input := mkPutItemInput entityParsed (tablename db) in
      '(_, err) ← dynamodb.PutItem input;
      match err with
      | Some e => mret (None, Some e)
      | None => mret (article, None)
      end
  end.

(** [fmt.Sprintf("Article with id [ %s ] not found", article_id)] *)
Definition not_found_msg (article_id : string) : string :=
  "Article with id [ " ++ article_id ++ " ] not found".

Definition GetArticleByID (db : dynamodbClient) (article_id : string)
  : M (ptr * option error) :=
  '(result, err) ← dynamodb.GetItem (mkGetItemInput (tablename db) (key_map article_id));
  match err with
  | Some e => p ← new_Article zeroArticle; mret (Some p, Some e)
  | None =>
      match dynamodb.GetItem_Item result with
      | None =>
          let msg := not_found_msg article_id in
          p ← new_Article zeroArticle; mret (Some p, Some (errorString msg))
      | Some item =>
          match dynamodbattribute.UnmarshalMap item with
          | inr e => p ← new_Article zeroArticle; mret (Some p, Some e)
          | inl article => p ← new_Article article; mret (Some p, None)
          end
      end
  end.

(** The loop of [GetArticles] over [result.Items], [articles] being what
    was appended so far. *)
Fixpoint GetArticles_range (items : list Item) (articles : list Article)
  : option (list Article) * option error :=
  match items with
  | [] => (Some articles, None)
  | item :: rest =>
      match dynamodbattribute.UnmarshalMap item with
      | inr err => (None, Some err)
      | inl article => GetArticles_range rest (articles ++ [article])
      end
  end.

Definition GetArticles_filt : Condition := AttributeNotExists "ArticleID".
Definition GetArticles_proj : list string :=
  ["article_id"; "title"; "subtitle"; "introduction"; "body"; "tags";
   "publish_date"; "author_info"].

Definition GetArticles (db : dynamodbClient)
  : M (option (list Article) * option error) :=
  let articles := [] in
  let filt := GetArticles_filt in
  let proj := GetArticles_proj in
  let '(expr, err) :=
    expression.Build
      (expression.WithProjection proj
         (expression.WithFilter filt expression.NewBuilder)) in
  match err with
  | Some e => mret (None, Some e)
  | None =>
      let params :=
        mkScanInput (expression.Filter expr) (expression.Projection expr)
                    (tablename db) in
      '(result, err) ← dynamodb.Scan params;
      match err with
      | Some e => mret (None, Some e)
      | None => mret (GetArticles_range (dynamodb.Scan_Items result) articles)
      end
  end.

(** The loop of [GetArticlesByAuthor] over [*articles]. *)
Fixpoint GetArticlesByAuthor_range (author_id : string)
    (articles : list Article) (authorArticles : list Article) : list Article :=
  match articles with
  | [] => authorArticles
  | article :: rest =>
      if decide (ID (Author article) = author_id)
      then GetArticlesByAuthor_range author_id rest (authorArticles ++ [article])
      else GetArticlesByAuthor_range author_id rest authorArticles
  end.

Definition GetArticlesByAuthor (db : dynamodbClient) (author_id : string)
  : M (option (list Article) * option error) :=
  '(articles, err) ← GetArticles db;
  match err with
  | Some e => mret (None, Some e)
  | None =>
      match articles with
      | None => panic nil_dereference
      | Some articles =>
          mret (Some (GetArticlesByAuthor_range author_id articles []), None)
      end
  end.

(** The loop of [GetArticlesByTag] over [result.Items]. *)
Fixpoint GetArticlesByTag_range (items : list Item) (articles : list Article)
  : M (list Article) :=
  match items with
  | [] => mret articles
  | item :: rest =>
      match dynamodbattribute.UnmarshalMap item with
      | inr err => log_Fatalf ("Error unmarshaling item: " ++ Error err)
      | inl article => GetArticlesByTag_range rest (articles ++ [article])
      end
  end.

Definition GetArticlesByTag (db : dynamodbClient) (tag : string)
  : M (option (list Article) * option error) :=
  let indexName := "TagsIndex" in
  let queryInput :=
    mkQueryInput (tablename db) indexName (Equal "Tag" tag) (Contains "Tags" tag) in
  '(result, err) ← dynamodb.Query queryInput;
  _ ← match err with
      | Some e => log_Fatalf ("Query error: " ++ Error e)
      | None => mret ()
      end;
  articles ← GetArticlesByTag_range (dynamodb.Query_Items result) [];
  mret (Some articles, None).

Definition UpdateArticle (db : dynamodbClient) (article : ptr)
  : M (ptr * option error) :=
  '(entityParsed, err) ← MarshalMap_ptr article;
  match err with
  | Some e => mret (None, Some e)
  | None =>
      let input := mkPutItemInput entityParsed (tablename db) in
      '(_, err) ← dynamodb.PutItem input;
      match err with
      | Some e => mret (None, Some e)
      | None => a ← deref article; GetArticleByID db (ArticleID a)
      end
  end.

Definition DeleteArticle (db : dynamodbClient) (article_id : string)
  : M (option error) :=
  let input := mkDeleteItemInput (key_map article_id) (tablename db) in
  '(res, err) ← dynamodb.DeleteItem input;
  match res with
  | None => mret err
  | Some _ =>
      match err with
      | Some e => mret (Some e)
      | None => mret None
      end
  end.

(** The loop of [DeleteArticleAll]: what [DeleteArticle] returns is
    dropped. *)
Fixpoint DeleteArticleAll_range (db : dynamodbClient) (articles : list Article)
  : M unit :=
  match articles with
  | [] => mret ()
  | article :: rest =>
      _ ← DeleteArticle db (ArticleID article);
      DeleteArticleAll_range db rest
  end.

Definition DeleteArticleAll (db : dynamodbClient) : M (option error) :=
  '(articles, err) ← GetArticles db;
  match err with
  | Some e => mret (Some e)
  | None =>
      match articles with
      | None => panic nil_dereference
      | Some articles =>
          _ ← DeleteArticleAll_range db articles;
          mret None
      end
  end.

(** ** Notions the statements use *)

(** A store call goes well in [w]: it returns with a nil error. *)
Definition succeeds {A} (c : M (A * option error)) (w : World) : Prop :=
  ∃ a w', c w = Returned (a, None) w'.

(** The record [GetArticleByID] leaves in its fresh cell, and its error. *)
Definition GetArticleByID_result (id : string) (w : World)
  : Article * option error :=
  match next_fault w with
  | Some e => (zeroArticle, Some e)
  | None =>
      if decide (id = "") then (zeroArticle, Some dynamodb.ValidationException)
      else
        match table w !! id with
        | None => (zeroArticle, Some (errorString (not_found_msg id)))
        | Some item =>
            match dynamodbattribute.UnmarshalMap item with
            | inr e => (zeroArticle, Some e)
            | inl article => (article, None)
            end
        end
  end.

(** The requests the methods send. *)
Definition put_request (db : dynamodbClient) (a : Article) : Request :=
  ReqPutItem (mkPutItemInput (dynamodbattribute.encodeArticle a) (tablename db)).
Definition delete_request (db : dynamodbClient) (a : Article) : Request :=
  ReqDeleteItem (mkDeleteItemInput (key_map (ArticleID a)) (tablename db)).
Definition scan_request (db : dynamodbClient) : Request :=
  ReqScan (mkScanInput (Some GetArticles_filt) (Some GetArticles_proj) (tablename db)).
Definition query_request (db : dynamodbClient) (tag : string) : Request :=
  ReqQuery (mkQueryInput (tablename db) "TagsIndex" (Equal "Tag" tag) (Contains "Tags" tag)).

(** The items the scan of [GetArticles] hands back in [w]. *)
Definition scan_items (w : World) : list Item :=
  dynamodb.project (Some GetArticles_proj) <$>
    List.filter (dynamodb.holds_opt (Some GetArticles_filt)) (dynamodb.scanned w).

(** Every item of the table is a marshalled article: what a table holds
    that only [CreateArticle] and [UpdateArticle] wrote to. *)
Definition stored_articles (t : gmap string Item) : Prop :=
  ∀ k item, t !! k = Some item → ∃ a, item = dynamodbattribute.encodeArticle a.

(** The ids whose delete request goes through, when the requests for [ids]
    are sent in order against the fault list [fs]. *)
Fixpoint deleted (ids : list string) (fs : list (option error)) : list string :=
  match ids with
  | [] => []
  | id :: rest =>
      (if decide (default None (head fs) = None ∧ id ≠ "") then [id] else [])
        ++ deleted rest (tail fs)
  end%list.

(** ** Sample data *)

Definition db0 : dynamodbClient := mkClient "articles".

Definition a1 : Article :=
  mkArticle "a1" "T" "" "intro" "text" ["go"; "db"] "2023-09-01T10:00:00Z"
            (mkAuthorInfo "u1" "Ann").
Definition a1' : Article :=
  mkArticle "a1" "T2" "sub" "" "other" [] "2023-09-02T10:00:00Z"
            (mkAuthorInfo "u2" "").
Definition a2 : Article :=
  mkArticle "a2" "U" "s" "i" "b" ["go"] "2023-09-03T10:00:00Z"
            (mkAuthorInfo "u2" "Bob").

Definition request_failed : error :=
  awsError "RequestError" "send request failed".

(** An empty table, one article on the heap, nothing going wrong. *)
Definition w0 : World := mkWorld [a1] ∅ [] [] 100.

(** The same, with the next request failing. *)
Definition w_fault : World := mkWorld [a1] ∅ [Some request_failed] [] 100.

(** A table with an item that does not decode: its title is a list. *)
Definition bad_item : Item :=
  <["article_id" := AvS "b1"]> (<["title" := AvL []]> ∅).
Definition w_bad : World := mkWorld [a1] {["b1" := bad_item]} [] [] 100.

(** A table that already holds an older version of [a1']. *)
Definition w_old : World :=
  mkWorld [a1'] {["a1" := dynamodbattribute.encodeArticle a1]} [] [] 100.

(** A table of two stored articles. *)
Definition w_two : World :=
  mkWorld []
    (<["a1" := dynamodbattribute.encodeArticle a1]>
       {["a2" := dynamodbattribute.encodeArticle a2]}) [] [] 100.

(** The same table; the first request will go well, the second fail, the
    third go well. *)
Definition w_partial : World :=
  mkWorld []
    (<["a1" := dynamodbattribute.encodeArticle a1]>
       {["a2" := dynamodbattribute.encodeArticle a2]})
    [None; Some request_failed; None] [] 100.

(** An item under the tag index that does not decode. *)
Definition bad_tagged_item : Item :=
  <["article_id" := AvS "b2"]>
  (<["Tag" := AvS "go"]>
  (<["Tags" := AvL [AvS "go"]]>
  (<["title" := AvL []]> ∅))).
Definition w_bad_tag : World := mkWorld [] {["b2" := bad_tagged_item]} [] [] 100.

(** A stored article with the attributes the tag index and the query's
    filter look at. *)
Definition tagged (a : Article) (tag : string) : Item :=
  <["Tag" := AvS tag]> (<["Tags" := AvL [AvS tag]]> (dynamodbattribute.encodeArticle a)).

(** ** Further notions: outcomes, the table's invariant, query items *)

(** A call comes back to its caller: no exit, no panic. *)
Definition returns {A} (o : Outcome A) : Prop := ∃ a w, o = Returned a w.

(** [article] is nil or points to a cell of the heap: what a Go caller can
    pass. *)
Definition valid_ptr (article : ptr) (w : World) : Prop :=
  match article with
  | None => True
  | Some l => is_Some (heap w !! l)
  end.

(** Every item of the table is a marshalled article stored under its own,
    non-empty id. *)
Definition keyed (t : gmap string Item) : Prop :=
  ∀ k item, t !! k = Some item →
    ∃ a, item = dynamodbattribute.encodeArticle a ∧ ArticleID a = k ∧ k ≠ "".

(** [item] decodes to [a]. *)
Definition decodes_to (item : Item) (a : Article) : Prop :=
  dynamodbattribute.UnmarshalMap item = inl a.

(** The items the query of [GetArticlesByTag] hands back in [w]. *)
Definition query_items (tag : string) (w : World) : list Item :=
  List.filter (dynamodb.holds (Contains "Tags" tag))
    (List.filter (dynamodb.holds (Equal "Tag" tag)) (map_to_list (table w)).*2).

(** More sample worlds: the put goes well and the read after it fails; an
    item that carries an attribute named [ArticleID]. *)
Definition w_reread_fails : World :=
  mkWorld [a1'] {["a1" := dynamodbattribute.encodeArticle a1]}
          [None; Some request_failed] [] 100.

(** ** The marshaller round trip *)
Section codec.
Import dynamodbattribute.

Lemma decode_encodeString (s : string) :
  decodeString (Some (encodeString s)) = inl s.
Proof. unfold encodeString. case_decide; simpl; congruence. Qed.

Lemma decode_encodeElems (l : list string) :
  decodeElems (encodeString <$> l) = inl l.
Proof.
  induction l as [|s l IH]; [done|].
  rewrite fmap_cons. cbn [decodeElems].
  by rewrite decode_encodeString, IH.
Qed.

Lemma decode_encodeStrings (l : list string) :
  decodeStrings (Some (encodeStrings l)) = inl l.
Proof.
  destruct l as [|s l]; [done|].
  unfold encodeStrings, decodeStrings. apply decode_encodeElems.
Qed.

Lemma decode_encodeAuthorInfo (a : AuthorInfo) :
  decodeAuthorInfo (Some (encodeAuthorInfo a)) = inl a.
Proof.
  destruct a as [id dn]. unfold encodeAuthorInfo, decodeAuthorInfo.
  rewrite lookup_insert_eq, decode_encodeString.
  rewrite lookup_insert_ne by done.
  by rewrite lookup_insert_eq, decode_encodeString.
Qed.

(** What [UnmarshalMap] reads back from a marshalled article is the
    article. *)
Lemma UnmarshalMap_MarshalMap (a : Article) :
  UnmarshalMap (encodeArticle a) = inl a.
Proof.
  destruct a. unfold UnmarshalMap, encodeArticle.
  repeat (rewrite ?lookup_insert_eq, ?decode_encodeString,
            ?decode_encodeStrings, ?decode_encodeAuthorInfo;
          try rewrite lookup_insert_ne by done).
  done.
Qed.

Lemma key_of_encodeArticle (a : Article) :
  dynamodb.key_of (encodeArticle a) =
    if decide (ArticleID a = "") then None else Some (ArticleID a).
Proof.
  unfold dynamodb.key_of, encodeArticle. rewrite lookup_insert_eq.
  unfold encodeString. case_decide; [done|]. by rewrite decide_False.
Qed.

Lemma key_of_key_map (id : string) :
  dynamodb.key_of (key_map id) = if decide (id = "") then None else Some id.
Proof. unfold dynamodb.key_of, key_map. by rewrite lookup_singleton_eq. Qed.

(** The filter and the projection of [GetArticles] leave a marshalled
    article as it is. *)
Lemma holds_filt_encodeArticle (a : Article) :
  dynamodb.holds GetArticles_filt (encodeArticle a) = true.
Proof.
  unfold GetArticles_filt, dynamodb.holds, encodeArticle.
  apply bool_decide_eq_true.
  repeat (rewrite lookup_insert_ne by done). apply lookup_empty.
Qed.

Lemma project_proj_encodeArticle (a : Article) :
  dynamodb.project (Some GetArticles_proj) (encodeArticle a) = encodeArticle a.
Proof.
  unfold dynamodb.project. apply map_filter_id. intros k v Hkv. simpl.
  apply elem_of_dom_2 in Hkv. revert Hkv.
  unfold encodeArticle, GetArticles_proj.
  rewrite !dom_insert_L, dom_empty_L. set_solver.
Qed.

End codec.

(** ** Running the store client and [GetArticleByID] *)

Ltac run :=
  unfold mbind, M_bind, mret, M_ret, modify_world, get_world, new_Article,
    dynamodb.send, log_Fatalf, panic; simpl.

Section client.
Import dynamodb.

Lemma PutItem_run (input : PutItemInput) (w : World) :
  PutItem input w =
    match next_fault w with
    | Some e => Returned ((), Some e) (sent (ReqPutItem input) w)
    | None =>
        match key_of (PutItem_Item input) with
        | None => Returned ((), Some ValidationException) (sent (ReqPutItem input) w)
        | Some k =>
            Returned ((), None)
              (set_table (<[k := PutItem_Item input]> (table w))
                 (sent (ReqPutItem input) w))
        end
    end.
Proof.
  unfold PutItem. run. destruct (next_fault w); [done|].
  by destruct (key_of _).
Qed.

Lemma GetItem_run (input : GetItemInput) (w : World) :
  GetItem input w =
    Returned
      match next_fault w with
      | Some e => (mkGetItemOutput None, Some e)
      | None =>
          match key_of (GetItem_Key input) with
          | None => (mkGetItemOutput None, Some ValidationException)
          | Some k => (mkGetItemOutput (table w !! k), None)
          end
      end
      (sent (ReqGetItem input) w).
Proof.
  unfold GetItem. run. destruct (next_fault w); [done|].
  by destruct (key_of _).
Qed.

Lemma DeleteItem_run (input : DeleteItemInput) (w : World) :
  DeleteItem input w =
    match next_fault w with
    | Some e => Returned (Some (), Some e) (sent (ReqDeleteItem input) w)
    | None =>
        match key_of (DeleteItem_Key input) with
        | None => Returned (Some (), Some ValidationException) (sent (ReqDeleteItem input) w)
        | Some k =>
            Returned (Some (), None)
              (set_table (delete k (table w)) (sent (ReqDeleteItem input) w))
        end
    end.
Proof.
  unfold DeleteItem. run. destruct (next_fault w); [done|].
  by destruct (key_of _).
Qed.

(** A get or a delete by [id] goes well exactly when nothing fails on the
    way and the store accepts the key. *)
Lemma succeeds_GetItem (tn id : string) (w : World) :
  succeeds (GetItem (mkGetItemInput tn (key_map id))) w ↔
  next_fault w = None ∧ id ≠ "".
Proof.
  unfold succeeds. setoid_rewrite GetItem_run. simpl.
  rewrite key_of_key_map. split.
  - intros (a & w' & H). destruct (next_fault w); [naive_solver|].
    case_decide; naive_solver.
  - intros [-> ?]. rewrite decide_False by done. eauto.
Qed.

Lemma succeeds_DeleteItem (tn id : string) (w : World) :
  succeeds (DeleteItem (mkDeleteItemInput (key_map id) tn)) w ↔
  next_fault w = None ∧ id ≠ "".
Proof.
  unfold succeeds. setoid_rewrite DeleteItem_run. simpl.
  rewrite key_of_key_map. split.
  - intros (a & w' & H). destruct (next_fault w); [naive_solver|].
    case_decide; naive_solver.
  - intros [-> ?]. rewrite decide_False by done. eauto.
Qed.

End client.

Lemma GetArticleByID_run (db : dynamodbClient) (id : string) (w : World) :
  GetArticleByID db id w =
    Returned (Some (length (heap w)), (GetArticleByID_result id w).2)
      (set_heap (heap w ++ [(GetArticleByID_result id w).1])
         (dynamodb.sent (ReqGetItem (mkGetItemInput (tablename db) (key_map id))) w)).
Proof.
  unfold GetArticleByID, GetArticleByID_result.
  unfold mbind at 1. unfold M_bind. rewrite GetItem_run. simpl.
  rewrite key_of_key_map.
  destruct (next_fault w); [done|].
  case_decide; [done|]. simpl.
  destruct (table w !! id) as [item|]; [|done].
  by destruct (dynamodbattribute.UnmarshalMap item).
Qed.

Lemma lookup_alloc {A} (h : list A) (a : A) : (h ++ [a])%list !! length h = Some a.
Proof. by rewrite lookup_app_r, Nat.sub_diag. Qed.

Lemma lookup_alloc_old {A} (h : list A) (a b : A) (l : nat) :
  h !! l = Some b → (h ++ [a])%list !! l = Some b.
Proof. intros H. rewrite lookup_app_l; [done|]. by eapply lookup_lt_Some. Qed.

(** ** Writing an article *)

Lemma CreateArticle_run (db : dynamodbClient) (w : World) (p : loc) (a : Article) :
  heap w !! p = Some a →
  CreateArticle db (Some p) w =
    match next_fault w with
    | Some e => Returned (None, Some e) (dynamodb.sent (put_request db a) w)
    | None =>
        if decide (ArticleID a = "")
        then Returned (None, Some dynamodb.ValidationException)
               (dynamodb.sent (put_request db a) w)
        else Returned (Some p, None)
               (set_table (<[ArticleID a := dynamodbattribute.encodeArticle a]> (table w))
                  (dynamodb.sent (put_request db a) w))
    end.
Proof.
  intros Hp. unfold CreateArticle, MarshalMap_ptr, load.
  unfold mbind, M_bind, mret, M_ret. rewrite Hp. simpl.
  rewrite PutItem_run. simpl. rewrite key_of_encodeArticle.
  destruct (next_fault w); [done|]. by case_decide.
Qed.

Lemma CreateArticle_nil (db : dynamodbClient) (w : World) :
  ∃ e w', CreateArticle db None w = Returned (None, Some e) w' ∧ heap w' = heap w.
Proof.
  unfold CreateArticle, MarshalMap_ptr. simpl.
  unfold mbind, M_bind, mret, M_ret. rewrite PutItem_run. simpl.
  destruct (next_fault w); eauto.
Qed.

(** C1. An article that [CreateArticle] persisted is read back by
    [GetArticleByID] under its id, equal in every field: in any later world
    whose table still holds what the create left under that id, and in which
    the get request goes well, the call returns a nil error and a pointer to
    a cell holding the article. *)
Theorem create_then_get_by_id
    (db : dynamodbClient) (w w1 w2 : World) (p : loc) (A : Article) (r : ptr) :
  heap w !! p = Some A →
  CreateArticle db (Some p) w = Returned (r, None) w1 →
  table w2 !! ArticleID A = table w1 !! ArticleID A →
  succeeds (dynamodb.GetItem (mkGetItemInput (tablename db) (key_map (ArticleID A)))) w2 →
  ∃ q w3, GetArticleByID db (ArticleID A) w2 = Returned (Some q, None) w3 ∧
          heap w3 !! q = Some A.
Proof.
  intros Hp Hcreate Htable Hget.
  rewrite (CreateArticle_run _ _ _ _ Hp) in Hcreate.
  apply succeeds_GetItem in Hget as [Hfault Hid].
  destruct (next_fault w); [done|].
  rewrite decide_False in Hcreate by done.
  injection Hcreate as <- <-. simpl in Htable.
  rewrite lookup_insert_eq in Htable.
  rewrite GetArticleByID_run. unfold GetArticleByID_result.
  rewrite Hfault, decide_False, Htable, UnmarshalMap_MarshalMap by done.
  simpl. eexists _, _. split; [done|]. simpl. apply lookup_alloc.
Qed.

Lemma create_then_get_by_id_witness :
  heap w0 !! 0 = Some a1 ∧
  (∃ q w3, GetArticleByID db0 "a1" (final (CreateArticle db0 (Some 0) w0))
             = Returned (Some q, None) w3 ∧ heap w3 !! q = Some a1).
Proof.
  split; [reflexivity|].
  apply (create_then_get_by_id db0 w0 (final (CreateArticle db0 (Some 0) w0))
           (final (CreateArticle db0 (Some 0) w0)) 0 a1 (Some 0)).
  - reflexivity.
  - reflexivity.
  - reflexivity.
  - eexists _, _. reflexivity.
Defined.

(** ** Reading by id *)

Lemma GetArticleByID_not_found (db : dynamodbClient) (id : string) (w : World) :
  table w !! id = None →
  succeeds (dynamodb.GetItem (mkGetItemInput (tablename db) (key_map id))) w →
  GetArticleByID db id w =
    Returned (Some (length (heap w)), Some (errorString (not_found_msg id)))
      (set_heap (heap w ++ [zeroArticle])
         (dynamodb.sent (ReqGetItem (mkGetItemInput (tablename db) (key_map id))) w)).
Proof.
  intros Habsent [Hfault Hid]%succeeds_GetItem.
  rewrite GetArticleByID_run. unfold GetArticleByID_result.
  by rewrite Hfault, decide_False, Habsent.
Qed.

(** C3. When the table holds no item under [id] and the get request itself
    goes well, [GetArticleByID] fails with the not-found error and no other:
    an [errors.New] value whose text is the fixed message around [id]. *)
Theorem get_by_id_absent_not_found (db : dynamodbClient) (id : string) (w : World) :
  table w !! id = None →
  succeeds (dynamodb.GetItem (mkGetItemInput (tablename db) (key_map id))) w →
  ∃ q e w', GetArticleByID db id w = Returned (Some q, Some e) w' ∧
            e = errorString (not_found_msg id) ∧
            Error e = "Article with id [ " ++ id ++ " ] not found".
Proof.
  intros Habsent Hget. rewrite (GetArticleByID_not_found _ _ _ Habsent Hget).
  by eexists _, _, _.
Qed.

Lemma get_by_id_absent_not_found_witness :
  ∃ q w', GetArticleByID db0 "a7" w0
          = Returned (Some q, Some (errorString "Article with id [ a7 ] not found")) w'.
Proof.
  destruct (get_by_id_absent_not_found db0 "a7" w0) as (q & e & w' & Hrun & -> & _).
  - reflexivity.
  - eexists _, _. reflexivity.
  - exists q, w'. exact Hrun.
Defined.

(** C9. [GetArticleByID] always returns, and never a nil pointer: the
    pointer is to a cell allocated by the call, and whenever the error is
    not nil that cell holds the zero article. *)
Theorem GetArticleByID_pointer_never_nil (db : dynamodbClient) (id : string) (w : World) :
  ∃ q err w', GetArticleByID db id w = Returned (Some q, err) w' ∧
              heap w !! q = None ∧
              (err ≠ None → heap w' !! q = Some zeroArticle).
Proof.
  rewrite GetArticleByID_run. eexists _, _, _. split; [done|]. split.
  - by apply lookup_ge_None.
  - simpl. intros Herr. rewrite lookup_alloc. f_equal.
    unfold GetArticleByID_result in *.
    destruct (next_fault w); [done|]. case_decide; [done|].
    destruct (table w !! id) as [item|]; [|done].
    by destruct (dynamodbattribute.UnmarshalMap item).
Qed.

Lemma GetArticleByID_pointer_never_nil_witness :
  ∃ q w', GetArticleByID db0 "a1" w0
            = Returned (Some q, Some (errorString "Article with id [ a1 ] not found")) w' ∧
          heap w' !! q = Some zeroArticle.
Proof.
  destruct (GetArticleByID_pointer_never_nil db0 "a1" w0)
    as (q & err & w' & Hrun & _ & Hzero).
  assert (Herr : err = Some (errorString "Article with id [ a1 ] not found")).
  { rewrite GetArticleByID_run in Hrun. by injection Hrun as _ <- _. }
  subst err. exists q, w'. split; [exact Hrun|]. by apply Hzero.
Defined.

(** The three error paths of [GetArticleByID] on sample worlds: a failed
    request, an absent id, an item that does not decode. *)
Example GetArticleByID_store_failure :
  ∃ w', GetArticleByID db0 "a1" w_fault = Returned (Some 1, Some request_failed) w' ∧
        heap w' !! 1 = Some zeroArticle.
Proof. exists (final (GetArticleByID db0 "a1" w_fault)). by vm_compute. Qed.

Example GetArticleByID_absent :
  ∃ w', GetArticleByID db0 "a1" w0
          = Returned (Some 1, Some (errorString "Article with id [ a1 ] not found")) w' ∧
        heap w' !! 1 = Some zeroArticle.
Proof. exists (final (GetArticleByID db0 "a1" w0)). by vm_compute. Qed.

Example GetArticleByID_decode_failure :
  ∃ w', GetArticleByID db0 "b1" w_bad
          = Returned (Some 1, Some (UnmarshalTypeError "list" "string")) w' ∧
        heap w' !! 1 = Some zeroArticle.
Proof. exists (final (GetArticleByID db0 "b1" w_bad)). by vm_compute. Qed.

(** ** Deleting by id *)

Lemma DeleteArticle_run (db : dynamodbClient) (id : string) (w : World) :
  DeleteArticle db id w =
    let sent := dynamodb.sent
                  (ReqDeleteItem (mkDeleteItemInput (key_map id) (tablename db))) w in
    match next_fault w with
    | Some e => Returned (Some e) sent
    | None =>
        if decide (id = "") then Returned (Some dynamodb.ValidationException) sent
        else Returned None (set_table (delete id (table w)) sent)
    end.
Proof.
  unfold DeleteArticle, mbind, M_bind. rewrite DeleteItem_run. simpl.
  rewrite key_of_key_map. destruct (next_fault w); [done|]. by case_decide.
Qed.

(** C8. [DeleteArticle] hands back the error of its delete request and
    nothing else, so it returns nil whenever that request goes well, whether
    or not the table held an item under [id]; and once it has returned nil,
    a [GetArticleByID] of the same id (no write in between, the get request
    going well) fails with the not-found error. *)
Theorem DeleteArticle_then_not_found (db : dynamodbClient) (id : string) (w : World) :
  (∀ res err w1,
     dynamodb.DeleteItem (mkDeleteItemInput (key_map id) (tablename db)) w
       = Returned (res, err) w1 →
     DeleteArticle db id w = Returned err w1) ∧
  (succeeds (dynamodb.DeleteItem (mkDeleteItemInput (key_map id) (tablename db))) w →
   ∃ w1, DeleteArticle db id w = Returned None w1 ∧
         table w1 = delete id (table w)) ∧
  (∀ w1 w2,
     DeleteArticle db id w = Returned None w1 →
     table w2 !! id = table w1 !! id →
     succeeds (dynamodb.GetItem (mkGetItemInput (tablename db) (key_map id))) w2 →
     ∃ q w3, GetArticleByID db id w2
             = Returned (Some q, Some (errorString (not_found_msg id))) w3).
Proof.
  split; [|split].
  - intros res err w1 Hdel. unfold DeleteArticle, mbind, M_bind.
    rewrite Hdel. simpl. by destruct res, err.
  - intros [Hfault Hid]%succeeds_DeleteItem. rewrite DeleteArticle_run.
    rewrite Hfault, decide_False by done. simpl. by eexists.
  - intros w1 w2 Hdel Htable Hget. rewrite DeleteArticle_run in Hdel.
    destruct (next_fault w); [done|]. case_decide; [done|].
    injection Hdel as <-. simpl in Htable. rewrite lookup_delete_eq in Htable.
    rewrite (GetArticleByID_not_found _ _ _ Htable Hget). by eexists _, _.
Qed.

Lemma DeleteArticle_then_not_found_witness :
  table w0 !! "a9" = None ∧
  (∃ w1, DeleteArticle db0 "a9" w0 = Returned None w1 ∧
         ∃ q w3, GetArticleByID db0 "a9" w1
                 = Returned (Some q, Some (errorString "Article with id [ a9 ] not found")) w3).
Proof.
  split; [reflexivity|].
  destruct (DeleteArticle_then_not_found db0 "a9" w0) as (_ & Hok & Hget).
  destruct Hok as (w1 & Hdel & _).
  - eexists _, _. reflexivity.
  - exists w1. split; [exact Hdel|].
    apply (Hget w1 w1 Hdel eq_refl).
    apply succeeds_GetItem. split; [|done].
    rewrite DeleteArticle_run in Hdel. simpl in Hdel.
    by injection Hdel as <-.
Defined.

(** ** Updating *)

(** [UpdateArticle] is [CreateArticle]'s put followed, when the put went
    well, by [GetArticleByID] on the id read from the argument. *)
Lemma UpdateArticle_run (db : dynamodbClient) (w : World) (p : loc) (a : Article) :
  heap w !! p = Some a →
  UpdateArticle db (Some p) w =
    match CreateArticle db (Some p) w with
    | Returned (_, None) w1 => GetArticleByID db (ArticleID a) w1
    | Returned (_, Some e) w1 => Returned (None, Some e) w1
    | o => o
    end.
Proof.
  intros Hp. rewrite (CreateArticle_run _ _ _ _ Hp).
  unfold UpdateArticle, MarshalMap_ptr, deref, load.
  unfold mbind, M_bind, mret, M_ret. rewrite Hp. simpl.
  rewrite PutItem_run. simpl. rewrite key_of_encodeArticle.
  destruct (next_fault w); [done|]. case_decide; [done|].
  simpl. by rewrite Hp.
Qed.

(** C5. [UpdateArticle] sends the very put [CreateArticle] sends and then
    returns what [GetArticleByID] reads under the argument's id. When it
    returns a nil error, the table holds the marshalled argument under that
    id whatever it held before, the returned pointer is to a fresh cell
    holding the argument's value, and a later [GetArticleByID] of that id (no
    write in between, the get request going well) reads that value again. *)
Theorem UpdateArticle_overwrites_and_rereads
    (db : dynamodbClient) (w : World) (p : loc) (A' : Article) :
  heap w !! p = Some A' →
  UpdateArticle db (Some p) w =
    match CreateArticle db (Some p) w with
    | Returned (_, None) w1 => GetArticleByID db (ArticleID A') w1
    | Returned (_, Some e) w1 => Returned (None, Some e) w1
    | o => o
    end ∧
  ∀ r w1,
    UpdateArticle db (Some p) w = Returned (r, None) w1 →
    table w1 = <[ArticleID A' := dynamodbattribute.encodeArticle A']> (table w) ∧
    (∃ q, r = Some q ∧ q ≠ p ∧ heap w1 !! q = Some A') ∧
    ∀ w2,
      table w2 !! ArticleID A' = table w1 !! ArticleID A' →
      succeeds (dynamodb.GetItem (mkGetItemInput (tablename db) (key_map (ArticleID A')))) w2 →
      ∃ q' w3, GetArticleByID db (ArticleID A') w2 = Returned (Some q', None) w3 ∧
               heap w3 !! q' = Some A'.
Proof.
  intros Hp. split; [by apply UpdateArticle_run|].
  intros r w1 Hupd. rewrite (UpdateArticle_run _ _ _ _ Hp) in Hupd.
  rewrite (CreateArticle_run _ _ _ _ Hp) in Hupd.
  destruct (next_fault w) eqn:Hfault; [done|].
  destruct (decide (ArticleID A' = "")) as [|Hid]; [done|].
  rewrite GetArticleByID_run in Hupd. unfold GetArticleByID_result in Hupd.
  simpl in Hupd. rewrite lookup_insert_eq, UnmarshalMap_MarshalMap in Hupd.
  rewrite decide_False in Hupd by done.
  destruct (next_fault (set_table _ _)); [done|].
  simpl in Hupd. injection Hupd as <- <-. simpl. split; [done|]. split.
  - eexists. split; [done|]. split; [|apply lookup_alloc].
    apply lookup_lt_Some in Hp. lia.
  - intros w2 Htable [Hfault2 _]%succeeds_GetItem.
    rewrite lookup_insert_eq in Htable.
    rewrite GetArticleByID_run. unfold GetArticleByID_result.
    rewrite Hfault2, decide_False, Htable, UnmarshalMap_MarshalMap by done.
    simpl. eexists _, _. split; [done|]. apply lookup_alloc.
Qed.

Lemma UpdateArticle_overwrites_and_rereads_witness :
  heap w_old !! 0 = Some a1' ∧
  (∃ w1, UpdateArticle db0 (Some 0) w_old = Returned (Some 1, None) w1 ∧
         heap w1 !! 1 = Some a1' ∧
         ∃ q' w3, GetArticleByID db0 "a1" w1 = Returned (Some q', None) w3 ∧
                  heap w3 !! q' = Some a1').
Proof.
  split; [reflexivity|].
  destruct (UpdateArticle_overwrites_and_rereads db0 w_old 0 a1' eq_refl) as [_ H].
  exists (final (UpdateArticle db0 (Some 0) w_old)).
  split; [by vm_compute|]. split; [by vm_compute|].
  destruct (H (Some 1) (final (UpdateArticle db0 (Some 0) w_old))) as (_ & _ & Hget);
    [by vm_compute|].
  apply Hget; [reflexivity|].
  eexists _, _. by vm_compute.
Defined.

(** ** The caller's cell *)

(** No method writes to a cell that exists: allocation only appends. *)
Lemma GetArticleByID_heap (db : dynamodbClient) (id : string) (w : World) (l : loc) (a : Article) :
  heap w !! l = Some a → heap (final (GetArticleByID db id w)) !! l = Some a.
Proof. intros Hl. rewrite GetArticleByID_run. simpl. by apply lookup_alloc_old. Qed.

(** C10. [CreateArticle] and [UpdateArticle] leave the cell their argument
    points to as it was, however they end, and a [CreateArticle] that returns
    a nil error returns the pointer it was given. *)
Theorem writers_do_not_mutate_argument
    (db : dynamodbClient) (w : World) (p : loc) (A : Article) :
  heap w !! p = Some A →
  heap (final (CreateArticle db (Some p) w)) !! p = Some A ∧
  heap (final (UpdateArticle db (Some p) w)) !! p = Some A ∧
  ∀ r w', CreateArticle db (Some p) w = Returned (r, None) w' →
          r = Some p ∧ heap w' !! p = Some A.
Proof.
  intros Hp.
  assert (Hcreate : heap (final (CreateArticle db (Some p) w)) !! p = Some A).
  { rewrite (CreateArticle_run _ _ _ _ Hp).
    destruct (next_fault w); [done|]. by case_decide. }
  split; [done|]. split.
  - rewrite (UpdateArticle_run _ _ _ _ Hp).
    destruct (CreateArticle db (Some p) w) as [[r [e|]] w1| |]; try done.
    by apply GetArticleByID_heap.
  - intros r w' Hrun. rewrite Hrun in Hcreate. split; [|done].
    rewrite (CreateArticle_run _ _ _ _ Hp) in Hrun.
    destruct (next_fault w); [done|]. case_decide; [done|]. congruence.
Qed.

Lemma writers_do_not_mutate_argument_witness :
  heap w_old !! 0 = Some a1' ∧
  heap (final (CreateArticle db0 (Some 0) w_old)) !! 0 = Some a1' ∧
  heap (final (UpdateArticle db0 (Some 0) w_old)) !! 0 = Some a1'.
Proof.
  split; [reflexivity|].
  destruct (writers_do_not_mutate_argument db0 w_old 0 a1' eq_refl) as (H1 & H2 & _).
  by split.
Defined.

(** ** Listing *)

Lemma GetArticles_run (db : dynamodbClient) (w : World) :
  GetArticles db w =
    Returned
      match next_fault w with
      | Some e => (None, Some e)
      | None => GetArticles_range (scan_items w) []
      end
      (dynamodb.sent (scan_request db) w).
Proof.
  unfold GetArticles, dynamodb.Scan. run. by destruct (next_fault w).
Qed.

(** The loop ends with the slice and a nil error, or with nil and an
    error. *)
Lemma GetArticles_range_cases (items : list Item) (acc : list Article) :
  (∃ arts, GetArticles_range items acc = (Some arts, None)) ∨
  (∃ e, GetArticles_range items acc = (None, Some e)).
Proof.
  revert acc. induction items as [|item items IH]; intros acc; simpl; [eauto|].
  destruct (dynamodbattribute.UnmarshalMap item); eauto.
Qed.

Lemma GetArticles_range_encoded (arts acc : list Article) :
  GetArticles_range (dynamodbattribute.encodeArticle <$> arts) acc
  = (Some (acc ++ arts)%list, None).
Proof.
  revert acc. induction arts as [|a arts IH]; intros acc; simpl.
  - by rewrite app_nil_r.
  - rewrite UnmarshalMap_MarshalMap, IH. by rewrite <- app_assoc.
Qed.

Lemma encoded_list (items : list Item) :
  Forall (λ item, ∃ a, item = dynamodbattribute.encodeArticle a) items →
  ∃ arts, items = dynamodbattribute.encodeArticle <$> arts.
Proof.
  induction 1 as [|item items [a ->] _ [arts ->]].
  - by exists [].
  - by exists (a :: arts).
Qed.

Lemma stored_articles_scanned (w : World) :
  stored_articles (table w) →
  ∃ arts, dynamodb.scanned w = dynamodbattribute.encodeArticle <$> arts.
Proof.
  intros Hstored. apply encoded_list. unfold dynamodb.scanned.
  apply Forall_take, Forall_fmap, Forall_forall.
  intros [k item] Hin%elem_of_map_to_list. simpl. by eapply Hstored.
Qed.

Lemma scan_items_encoded (arts : list Article) :
  dynamodb.project (Some GetArticles_proj) <$>
    List.filter (dynamodb.holds_opt (Some GetArticles_filt))
      (dynamodbattribute.encodeArticle <$> arts)
  = dynamodbattribute.encodeArticle <$> arts.
Proof.
  induction arts as [|a arts IH]; [done|].
  rewrite fmap_cons. cbn [List.filter dynamodb.holds_opt].
  rewrite holds_filt_encodeArticle, fmap_cons, project_proj_encodeArticle.
  by f_equal.
Qed.

(** C7. [GetArticles] sends one Scan request and no second one, however
    the call ends. On a table of stored articles its filter and projection
    change nothing: the scan hands back the items exactly as the store read
    them. When the request goes well the call returns the article of every
    item of that one response, which is every item of the table as soon as
    the table fits in a response. *)
Theorem GetArticles_single_full_scan (db : dynamodbClient) (w : World) :
  requests (final (GetArticles db w)) = (requests w ++ [scan_request db])%list ∧
  (stored_articles (table w) →
   scan_items w = dynamodb.scanned w ∧
   (next_fault w = None →
    ∃ arts w',
      GetArticles db w = Returned (Some arts, None) w' ∧
      table w' = table w ∧
      dynamodbattribute.encodeArticle <$> arts
        = take (scan_page w) (map_to_list (table w)).*2 ∧
      ((size (table w) ≤ scan_page w)%nat →
       ∀ k item, table w !! k = Some item →
                 ∃ a, a ∈ arts ∧ dynamodbattribute.encodeArticle a = item))).
Proof.
  rewrite GetArticles_run. split; [done|].
  intros Hstored. destruct (stored_articles_scanned w Hstored) as [arts Harts].
  assert (Hitems : scan_items w = dynamodb.scanned w).
  { unfold scan_items. rewrite Harts. apply scan_items_encoded. }
  split; [done|]. intros ->. rewrite Hitems, Harts, GetArticles_range_encoded.
  exists arts. eexists. split; [done|]. split; [done|].
  split; [by rewrite <- Harts|].
  intros Hfits k item Hk.
  assert (Hin : item ∈ dynamodbattribute.encodeArticle <$> arts).
  { rewrite <- Harts. unfold dynamodb.scanned.
    rewrite take_ge by (by rewrite length_fmap, length_map_to_list).
    apply list_elem_of_fmap. exists (k, item). split; [done|].
    by apply elem_of_map_to_list. }
  apply list_elem_of_fmap in Hin as (a & -> & Ha). eauto.
Qed.

Lemma stored_articles_w_two : stored_articles (table w_two).
Proof.
  intros k item Hk. simpl in Hk.
  apply lookup_insert_Some in Hk as [[_ <-]|[_ Hk]]; [by eexists|].
  apply lookup_singleton_Some in Hk as [_ <-]. by eexists.
Qed.

Lemma GetArticles_single_full_scan_witness :
  stored_articles (table w_two) ∧ next_fault w_two = None ∧
  (size (table w_two) ≤ scan_page w_two)%nat ∧
  ∃ arts w',
    GetArticles db0 w_two = Returned (Some arts, None) w' ∧
    (∃ a, a ∈ arts ∧ dynamodbattribute.encodeArticle a = dynamodbattribute.encodeArticle a1) ∧
    (∃ a, a ∈ arts ∧ dynamodbattribute.encodeArticle a = dynamodbattribute.encodeArticle a2).
Proof.
  assert (Hsize : (size (table w_two) ≤ scan_page w_two)%nat) by (vm_compute; lia).
  split; [exact stored_articles_w_two|]. split; [reflexivity|]. split; [exact Hsize|].
  destruct (GetArticles_single_full_scan db0 w_two) as [_ H].
  destruct (H stored_articles_w_two) as [_ H'].
  destruct (H' eq_refl) as (arts & w' & Hrun & _ & _ & Hall).
  exists arts, w'. split; [exact Hrun|]. split.
  - apply (Hall Hsize "a1"). reflexivity.
  - apply (Hall Hsize "a2"). reflexivity.
Defined.

(** ** Listing by author *)

Lemma GetArticlesByAuthor_range_filter (author_id : string) (arts acc : list Article) :
  GetArticlesByAuthor_range author_id arts acc
  = (acc ++ filter (λ a, ID (Author a) = author_id) arts)%list.
Proof.
  revert acc. induction arts as [|a arts IH]; intros acc; simpl.
  - by rewrite app_nil_r.
  - rewrite filter_cons. case_decide; rewrite IH; [|done].
    by rewrite <- app_assoc.
Qed.

(** C4. [GetArticlesByAuthor] runs [GetArticles] once and does nothing
    else to the world. When that listing fails, its error is returned with a
    nil slice; otherwise the result is a non-nil slice with a nil error that
    holds exactly the listed articles whose author id is [X] (and so the
    empty slice when there is none). *)
Theorem GetArticlesByAuthor_filters_listing (db : dynamodbClient) (X : string) (w : World) :
  ∃ r err w1,
    GetArticles db w = Returned (r, err) w1 ∧
    match err with
    | Some e => GetArticlesByAuthor db X w = Returned (None, Some e) w1
    | None =>
        ∃ arts res,
          r = Some arts ∧
          GetArticlesByAuthor db X w = Returned (Some res, None) w1 ∧
          res = filter (λ a, ID (Author a) = X) arts ∧
          (∀ a, a ∈ res ↔ a ∈ arts ∧ ID (Author a) = X) ∧
          ((∀ a, a ∈ arts → ID (Author a) ≠ X) → res = [])
    end.
Proof.
  unfold GetArticlesByAuthor, mbind, M_bind. rewrite GetArticles_run.
  destruct (next_fault w) as [e|]; [by eexists _, _, _|].
  destruct (GetArticles_range_cases (scan_items w) []) as [[arts ->]|[e ->]];
    [|by eexists _, _, _].
  eexists _, _, _. split; [done|].
  exists arts, (filter (λ a, ID (Author a) = X) arts).
  split; [done|]. split.
  { simpl. by rewrite GetArticlesByAuthor_range_filter. }
  split; [done|]. split.
  - intros a. rewrite list_elem_of_filter. tauto.
  - intros Hnone. induction arts as [|a arts IH]; [done|].
    rewrite filter_cons, decide_False by (apply Hnone; left).
    apply IH. intros b Hb. apply Hnone. by right.
Qed.

Lemma GetArticlesByAuthor_filters_listing_witness :
  ∃ w', GetArticlesByAuthor db0 "u9" w_two = Returned (Some [], None) w'.
Proof.
  destruct (GetArticlesByAuthor_filters_listing db0 "u9" w_two)
    as (r & err & w1 & Hlist & H).
  rewrite GetArticles_run in Hlist. vm_compute in Hlist.
  injection Hlist as <- <- _.
  destruct H as (arts & res & [= <-] & Hrun & _ & _ & Hnone).
  exists w1. rewrite Hrun, Hnone; [done|].
  intros a [->|[->|[]%elem_of_nil]%elem_of_cons]%elem_of_cons; by vm_compute.
Defined.

Example GetArticlesByAuthor_u2 :
  ∃ w', GetArticlesByAuthor db0 "u2" w_two = Returned (Some [a2], None) w'.
Proof. exists (final (GetArticlesByAuthor db0 "u2" w_two)). by vm_compute. Qed.

Example GetArticlesByAuthor_nobody :
  ∃ w', GetArticlesByAuthor db0 "u9" w_two = Returned (Some [], None) w'.
Proof. exists (final (GetArticlesByAuthor db0 "u9" w_two)). by vm_compute. Qed.

(** ** Deleting everything *)

Lemma drop_tail {A} (n : nat) (l : list A) : drop n (tail l) = drop (S n) l.
Proof. destruct l; [by destruct n|done]. Qed.

Lemma DeleteArticleAll_range_run (db : dynamodbClient) (arts : list Article) (w : World) :
  ∃ w', DeleteArticleAll_range db arts w = Returned () w' ∧
        heap w' = heap w ∧
        requests w' = (requests w ++ (delete_request db <$> arts))%list ∧
        faults w' = drop (length arts) (faults w) ∧
        ∀ k, table w' !! k =
             if decide (k ∈ deleted (ArticleID <$> arts) (faults w))
             then None else table w !! k.
Proof.
  revert w. induction arts as [|a arts IH]; intros w.
  - exists w. simpl. rewrite app_nil_r, drop_0. repeat split; done.
  - cbn [DeleteArticleAll_range]. unfold mbind, M_bind.
    rewrite DeleteArticle_run. cbn zeta.
    set (w1 := dynamodb.sent _ w).
    assert (Hfaults : faults w1 = tail (faults w)) by done.
    assert (Hreq : requests w1 = (requests w ++ [delete_request db a])%list) by done.
    unfold next_fault.
    destruct (default None (head (faults w))) as [e|] eqn:Hfault;
      [|destruct (decide (ArticleID a = "")) as [Hid|Hid]].
    + destruct (IH w1) as (w' & -> & Hheap & Hrequests & Hfs & Htable).
      exists w'. rewrite Hheap, Hrequests, Hfs, Hfaults, Hreq, <- app_assoc.
      rewrite drop_tail. repeat split; try done.
      intros k. rewrite Htable, Hfaults, fmap_cons. cbn [deleted].
      rewrite Hfault, (decide_False (P := _ ∧ _)) by (by intros [? _]). done.
    + destruct (IH w1) as (w' & -> & Hheap & Hrequests & Hfs & Htable).
      exists w'. rewrite Hheap, Hrequests, Hfs, Hfaults, Hreq, <- app_assoc.
      rewrite drop_tail. repeat split; try done.
      intros k. rewrite Htable, Hfaults, fmap_cons. cbn [deleted].
      rewrite (decide_False (P := _ ∧ _)) by (by intros [_ ?]). done.
    + destruct (IH (set_table (delete (ArticleID a) (table w)) w1))
        as (w' & -> & Hheap & Hrequests & Hfs & Htable).
      exists w'. rewrite Hheap, Hrequests, Hfs.
      cbn [set_table heap requests faults table].
      rewrite Hfaults, Hreq, <- app_assoc, drop_tail. repeat split; try done.
      intros k. rewrite Htable, fmap_cons.
      cbn [deleted set_table heap requests faults table].
      rewrite Hfault, Hfaults, (decide_True (P := _ ∧ _)) by done.
      destruct (decide (k = ArticleID a)) as [->|Hk].
      * cbn [app]. rewrite lookup_delete_eq, (decide_True (P := _ ∈ _ :: _)) by left.
        by case_decide.
      * rewrite lookup_delete_ne by done.
        apply decide_ext. cbn [app]. rewrite elem_of_cons. tauto.
Qed.

(** C6. [DeleteArticleAll] lists with [GetArticles]. When the listing
    fails it returns that error and sends no delete. Otherwise it sends one
    delete request for each listed article, in the order of the listing, and
    returns nil whatever these requests met: the table loses exactly the ids
    whose request went through and keeps every other item, those whose
    delete failed included. *)
Theorem DeleteArticleAll_ignores_delete_failures (db : dynamodbClient) (w : World) :
  ∃ r err w1,
    GetArticles db w = Returned (r, err) w1 ∧
    match err with
    | Some e => DeleteArticleAll db w = Returned (Some e) w1
    | None =>
        ∃ arts w',
          r = Some arts ∧
          DeleteArticleAll db w = Returned None w' ∧
          requests w' = (requests w1 ++ (delete_request db <$> arts))%list ∧
          ∀ k, table w' !! k =
               if decide (k ∈ deleted (ArticleID <$> arts) (faults w1))
               then None else table w1 !! k
    end.
Proof.
  unfold DeleteArticleAll, mbind, M_bind. rewrite GetArticles_run.
  destruct (next_fault w) as [e|]; [by eexists _, _, _|].
  destruct (GetArticles_range_cases (scan_items w) []) as [[arts ->]|[e ->]];
    [|by eexists _, _, _].
  eexists _, _, _. split; [done|].
  destruct (DeleteArticleAll_range_run db arts (dynamodb.sent (scan_request db) w))
    as (w' & Hrun & _ & Hrequests & _ & Htable).
  exists arts, w'. rewrite Hrun. done.
Qed.

(** The listing goes well, the first delete fails, the second goes
    through: the call reports success and ["a1"] is still there. *)
Example DeleteArticleAll_partial :
  ∃ w', DeleteArticleAll db0 w_partial = Returned None w' ∧
        table w' = {["a1" := dynamodbattribute.encodeArticle a1]}.
Proof.
  exists (final (DeleteArticleAll db0 w_partial)). split; vm_compute; reflexivity.
Qed.

(** The listing itself fails: its error comes back and the table is as it
    was. *)
Example DeleteArticleAll_listing_fails :
  ∃ w', DeleteArticleAll db0 (set_faults [Some request_failed] w_two)
          = Returned (Some request_failed) w' ∧
        table w' = table w_two.
Proof.
  exists (final (DeleteArticleAll db0 (set_faults [Some request_failed] w_two))).
  split; vm_compute; reflexivity.
Qed.

(** ** Listing by tag *)

(** A failed query ends the process. *)
Lemma GetArticlesByTag_query_failure (db : dynamodbClient) (tag : string) (w : World) (e : error) :
  next_fault w = Some e →
  GetArticlesByTag db tag w
  = Exited 1 ("Query error: " ++ Error e) (dynamodb.sent (query_request db tag) w).
Proof.
  intros Hfault. unfold GetArticlesByTag, dynamodb.Query. run. by rewrite Hfault.
Qed.

Lemma GetArticlesByTag_range_returns (items : list Item) (acc res : list Article) (w w' : World) :
  GetArticlesByTag_range items acc w = Returned res w' →
  w' = w ∧ Forall (λ item, ∃ a, dynamodbattribute.UnmarshalMap item = inl a) items.
Proof.
  revert acc. induction items as [|item items IH]; intros acc; simpl.
  - intros [= _ <-]. by split.
  - destruct (dynamodbattribute.UnmarshalMap item) as [a|e] eqn:Hitem; [|done].
    intros [-> Hrest]%IH. split; [done|]. constructor; eauto.
Qed.

(** Whenever [GetArticlesByTag] returns, its error is nil: no store failure
    ever reaches the caller as an error. *)
Lemma GetArticlesByTag_error_always_nil
    (db : dynamodbClient) (tag : string) (w w' : World)
    (r : option (list Article)) (err : option error) :
  GetArticlesByTag db tag w = Returned (r, err) w' →
  err = None ∧ next_fault w = None.
Proof.
  unfold GetArticlesByTag, dynamodb.Query. run.
  destruct (next_fault w); [done|]. simpl.
  destruct (GetArticlesByTag_range _ _ _); [|done..]. by intros [= _ <- _].
Qed.

(** C2. What [GetArticlesByTag] does on a store failure, on two sample
    worlds: with the query request failing, and with the query handing back
    an item that does not decode, the call does not return the error to its
    caller; the process exits with status 1 after logging the error. *)
Theorem GetArticlesByTag_store_failure_exits :
  (∃ w', GetArticlesByTag db0 "go" w_fault
         = Exited 1 "Query error: RequestError: send request failed" w') ∧
  (∃ w', GetArticlesByTag db0 "go" w_bad_tag
         = Exited 1
             "Error unmarshaling item: UnmarshalTypeError: cannot unmarshal list into Go value of type string"
             w').
Proof.
  split.
  - exists (final (GetArticlesByTag db0 "go" w_fault)). by vm_compute.
  - exists (final (GetArticlesByTag db0 "go" w_bad_tag)). by vm_compute.
Qed.

(** On a healthy store the same call returns the tagged articles. *)
Example GetArticlesByTag_go :
  ∃ w', GetArticlesByTag db0 "go"
          (mkWorld [] {["a1" := tagged a1 "go"]} [] [] 100)
        = Returned (Some [a1], None) w'.
Proof.
  exists (final (GetArticlesByTag db0 "go"
                   (mkWorld [] {["a1" := tagged a1 "go"]} [] [] 100))).
  by vm_compute.
Qed.

(** * Further properties of the repository *)

(** ** Creating: overwrite and failure *)

(** X1. [CreateArticle] makes no uniqueness check: whenever the put request
    goes through, the table holds the marshalled argument under its id,
    whatever it held there before, and every other key is as it was. *)
Theorem CreateArticle_overwrites
    (db : dynamodbClient) (w : World) (p : loc) (A : Article) :
  heap w !! p = Some A →
  next_fault w = None →
  ArticleID A ≠ "" →
  ∃ w1, CreateArticle db (Some p) w = Returned (Some p, None) w1 ∧
        table w1 !! ArticleID A = Some (dynamodbattribute.encodeArticle A) ∧
        ∀ k, k ≠ ArticleID A → table w1 !! k = table w !! k.
Proof.
  intros Hp Hfault Hid. rewrite (CreateArticle_run _ _ _ _ Hp), Hfault.
  rewrite decide_False by done. eexists. split; [done|]. simpl. split.
  - apply lookup_insert_eq.
  - intros k Hk. by rewrite lookup_insert_ne.
Qed.

Lemma CreateArticle_overwrites_witness :
  table w_old !! "a1" = Some (dynamodbattribute.encodeArticle a1) ∧
  ∃ w1, CreateArticle db0 (Some 0) w_old = Returned (Some 0, None) w1 ∧
        table w1 !! "a1" = Some (dynamodbattribute.encodeArticle a1').
Proof.
  split; [reflexivity|].
  destruct (CreateArticle_overwrites db0 w_old 0 a1') as (w1 & Hrun & Hnew & _).
  - reflexivity.
  - reflexivity.
  - by vm_compute.
  - by exists w1.
Defined.

Lemma CreateArticle_nil_run (db : dynamodbClient) (w : World) :
  CreateArticle db None w =
    Returned (None, Some (default dynamodb.ValidationException (next_fault w)))
      (dynamodb.sent (ReqPutItem (mkPutItemInput ∅ (tablename db))) w).
Proof.
  unfold CreateArticle, MarshalMap_ptr. simpl.
  unfold mbind, M_bind, mret, M_ret. rewrite PutItem_run. simpl.
  by destruct (next_fault w).
Qed.

(** X2. A [CreateArticle] that returns an error returns a nil pointer with
    it and has left the table and the heap as they were; the error is the
    one the put request met, or the store's refusal of an item without a
    usable key: a nil argument, or an article whose id is empty. *)
Theorem CreateArticle_failure
    (db : dynamodbClient) (article : ptr) (w w1 : World) (r : ptr) (e : error) :
  CreateArticle db article w = Returned (r, Some e) w1 →
  r = None ∧ table w1 = table w ∧ heap w1 = heap w ∧
  (next_fault w = Some e ∨
   (next_fault w = None ∧ e = dynamodb.ValidationException ∧
    match article with
    | None => True
    | Some p => ∃ A, heap w !! p = Some A ∧ ArticleID A = ""
    end)).
Proof.
  destruct article as [p|].
  - destruct (heap w !! p) as [A|] eqn:Hp.
    + rewrite (CreateArticle_run _ _ _ _ Hp).
      destruct (next_fault w) as [e'|]; [intros [= <- <- <-]; auto|].
      case_decide; [|done]. intros [= <- <- <-]. repeat split; try done.
      right. eauto.
    + unfold CreateArticle, MarshalMap_ptr, load, mbind, M_bind.
      by rewrite Hp.
  - rewrite CreateArticle_nil_run. intros [= <- He <-].
    destruct (next_fault w); simpl in He; subst; repeat split; try done.
    + by left.
    + by right.
Qed.

Lemma CreateArticle_failure_witness :
  ∃ w1, CreateArticle db0 (Some 0) w_fault = Returned (None, Some request_failed) w1 ∧
        table w1 = table w_fault.
Proof.
  exists (final (CreateArticle db0 (Some 0) w_fault)).
  assert (Hrun : CreateArticle db0 (Some 0) w_fault
                 = Returned (None, Some request_failed)
                     (final (CreateArticle db0 (Some 0) w_fault))) by reflexivity.
  split; [exact Hrun|].
  by destruct (CreateArticle_failure db0 (Some 0) w_fault _ None request_failed Hrun)
    as (_ & Htable & _).
Defined.

(** ** Updating: what a failure leaves behind *)

(** X3. [UpdateArticle] does not undo its write: when the put goes through
    and the read after it fails with [e], the call returns [e] with a pointer
    to a zero article, and the table already holds the new record. *)
Theorem UpdateArticle_write_survives_failed_reread
    (db : dynamodbClient) (w : World) (p : loc) (A : Article)
    (e : error) (rest : list (option error)) :
  heap w !! p = Some A →
  ArticleID A ≠ "" →
  faults w = None :: Some e :: rest →
  ∃ q w1, UpdateArticle db (Some p) w = Returned (Some q, Some e) w1 ∧
          heap w1 !! q = Some zeroArticle ∧
          table w1 !! ArticleID A = Some (dynamodbattribute.encodeArticle A).
Proof.
  intros Hp Hid Hfaults.
  rewrite (UpdateArticle_run _ _ _ _ Hp), (CreateArticle_run _ _ _ _ Hp).
  unfold next_fault at 1. rewrite Hfaults. simpl.
  rewrite decide_False by done.
  rewrite GetArticleByID_run. unfold GetArticleByID_result, next_fault.
  simpl. rewrite Hfaults. simpl. eexists _, _. split; [done|]. simpl.
  split; [apply lookup_alloc|apply lookup_insert_eq].
Qed.

Lemma UpdateArticle_write_survives_failed_reread_witness :
  table w_reread_fails !! "a1" = Some (dynamodbattribute.encodeArticle a1) ∧
  ∃ q w1, UpdateArticle db0 (Some 0) w_reread_fails
            = Returned (Some q, Some request_failed) w1 ∧
          table w1 !! "a1" = Some (dynamodbattribute.encodeArticle a1').
Proof.
  split; [reflexivity|].
  destruct (UpdateArticle_write_survives_failed_reread db0 w_reread_fails 0 a1'
              request_failed [])
    as (q & w1 & Hrun & _ & Htable).
  - reflexivity.
  - by vm_compute.
  - reflexivity.
  - by exists q, w1.
Defined.

Lemma UpdateArticle_nil_run (db : dynamodbClient) (w : World) :
  UpdateArticle db None w =
    Returned (None, Some (default dynamodb.ValidationException (next_fault w)))
      (dynamodb.sent (ReqPutItem (mkPutItemInput ∅ (tablename db))) w).
Proof.
  unfold UpdateArticle, MarshalMap_ptr. simpl.
  unfold mbind, M_bind, mret, M_ret. rewrite PutItem_run. simpl.
  by destruct (next_fault w).
Qed.

(** X4. The pointer [UpdateArticle] returns tells whether the write took
    effect. A nil pointer comes with an error, after the put request alone,
    and the table is as it was. A non-nil pointer, with or without an error,
    means the put went through: the table holds the marshalled argument under
    its id, and the put and one get were sent. *)
Theorem UpdateArticle_pointer_tells_write
    (db : dynamodbClient) (article : ptr) (w w1 : World)
    (r : ptr) (err : option error) :
  UpdateArticle db article w = Returned (r, err) w1 →
  match r with
  | None =>
      err ≠ None ∧ table w1 = table w ∧
      length (requests w1) = S (length (requests w))
  | Some q =>
      ∃ p A, article = Some p ∧ heap w !! p = Some A ∧
             table w1 = <[ArticleID A := dynamodbattribute.encodeArticle A]> (table w) ∧
             length (requests w1) = S (S (length (requests w)))
  end.
Proof.
  destruct article as [p|].
  - destruct (heap w !! p) as [A|] eqn:Hp.
    + rewrite (UpdateArticle_run _ _ _ _ Hp), (CreateArticle_run _ _ _ _ Hp).
      destruct (next_fault w) as [e|].
      { intros [= <- <- <-]. simpl. rewrite length_app. simpl.
        repeat split; [done|lia]. }
      case_decide.
      { intros [= <- <- <-]. simpl. rewrite length_app. simpl.
        repeat split; [done|lia]. }
      rewrite GetArticleByID_run. intros [= <- _ <-].
      exists p, A. simpl. rewrite !length_app. simpl.
      repeat split; [done|lia].
    + unfold UpdateArticle, MarshalMap_ptr, load, mbind, M_bind.
      by rewrite Hp.
  - rewrite UpdateArticle_nil_run. intros [= <- <- <-]. simpl.
    rewrite length_app. simpl. repeat split; [done|lia].
Qed.

Lemma UpdateArticle_pointer_tells_write_witness :
  ∃ w1, UpdateArticle db0 (Some 0) w_fault = Returned (None, Some request_failed) w1 ∧
        table w1 = table w_fault.
Proof.
  exists (final (UpdateArticle db0 (Some 0) w_fault)).
  assert (Hrun : UpdateArticle db0 (Some 0) w_fault
                 = Returned (None, Some request_failed)
                     (final (UpdateArticle db0 (Some 0) w_fault))) by reflexivity.
  split; [exact Hrun|].
  by destruct (UpdateArticle_pointer_tells_write db0 (Some 0) w_fault _ None _ Hrun)
    as (_ & Htable & _).
Defined.

(** ** Reading: frame and soundness *)

Lemma GetArticlesByTag_range_final (items : list Item) (acc : list Article) (w : World) :
  final (GetArticlesByTag_range items acc w) = w.
Proof.
  revert acc. induction items as [|item items IH]; intros acc; simpl; [done|].
  by destruct (dynamodbattribute.UnmarshalMap item).
Qed.

(** X5. The four reading methods never write to the table, however they
    end, the exit of [GetArticlesByTag] included. *)
Theorem readers_leave_table
    (db : dynamodbClient) (id author_id tag : string) (w : World) :
  table (final (GetArticleByID db id w)) = table w ∧
  table (final (GetArticles db w)) = table w ∧
  table (final (GetArticlesByAuthor db author_id w)) = table w ∧
  table (final (GetArticlesByTag db tag w)) = table w.
Proof.
  split; [by rewrite GetArticleByID_run|].
  split; [by rewrite GetArticles_run|]. split.
  - unfold GetArticlesByAuthor, mbind, M_bind. rewrite GetArticles_run.
    destruct (next_fault w); [done|].
    by destruct (GetArticles_range_cases (scan_items w) []) as [[arts ->]|[e ->]].
  - unfold GetArticlesByTag, dynamodb.Query. run.
    destruct (next_fault w); [done|]. simpl.
    match goal with
    | |- context [GetArticlesByTag_range ?items ?acc ?w'] =>
        pose proof (GetArticlesByTag_range_final items acc w') as Hfinal;
        destruct (GetArticlesByTag_range items acc w')
    end; simpl in *; by subst.
Qed.

(** X6. [GetArticleByID] reports success only for an item that is there:
    whenever it returns a nil error, the table holds an item under [id], that
    item decodes, and the returned pointer is to a cell holding the decoded
    record. *)
Theorem GetArticleByID_success_sound
    (db : dynamodbClient) (id : string) (w w1 : World) (r : ptr) :
  GetArticleByID db id w = Returned (r, None) w1 →
  ∃ q item a, r = Some q ∧ id ≠ "" ∧
              table w !! id = Some item ∧ decodes_to item a ∧
              heap w1 !! q = Some a.
Proof.
  rewrite GetArticleByID_run. unfold GetArticleByID_result, decodes_to.
  destruct (next_fault w); [done|]. case_decide; [done|].
  destruct (table w !! id) as [item|]; [|done].
  destruct (dynamodbattribute.UnmarshalMap item) as [a|e] eqn:Hitem; [|done].
  intros [= <- <-]. exists (length (heap w)), item, a. simpl.
  repeat split; try done. apply lookup_alloc.
Qed.

Lemma GetArticleByID_success_sound_witness :
  ∃ q w1, GetArticleByID db0 "a1" w_old = Returned (Some q, None) w1 ∧
          heap w1 !! q = Some a1.
Proof.
  assert (Hrun : GetArticleByID db0 "a1" w_old
                 = Returned (Some 1, None) (final (GetArticleByID db0 "a1" w_old)))
    by (by vm_compute).
  destruct (GetArticleByID_success_sound db0 "a1" w_old _ _ Hrun)
    as (q & item & a & [= <-] & _ & Hitem & Ha & Hq).
  exists 1, (final (GetArticleByID db0 "a1" w_old)). split; [exact Hrun|].
  rewrite Hq. f_equal.
  assert (Hstored : table w_old !! "a1" = Some (dynamodbattribute.encodeArticle a1))
    by reflexivity.
  rewrite Hstored in Hitem. injection Hitem as <-.
  unfold decodes_to in Ha. rewrite UnmarshalMap_MarshalMap in Ha. by injection Ha.
Defined.

(** ** Listing: all or nothing *)

Lemma GetArticles_range_Some (items : list Item) (acc arts : list Article) :
  GetArticles_range items acc = (Some arts, None) →
  ∃ ds, arts = (acc ++ ds)%list ∧ Forall2 decodes_to items ds.
Proof.
  revert acc. induction items as [|item items IH]; intros acc; simpl.
  - intros [= <-]. exists []. by rewrite app_nil_r.
  - destruct (dynamodbattribute.UnmarshalMap item) as [a|e] eqn:Hitem; [|done].
    intros (ds & -> & Hds)%IH. exists (a :: ds).
    rewrite <- app_assoc. split; [done|]. by constructor.
Qed.

Lemma GetArticles_range_error (items : list Item) (acc : list Article)
    (r : option (list Article)) (e : error) :
  GetArticles_range items acc = (r, Some e) →
  r = None ∧
  ∃ good item rest,
    items = (good ++ item :: rest)%list ∧
    Forall (λ it, ∃ a, decodes_to it a) good ∧
    dynamodbattribute.UnmarshalMap item = inr e.
Proof.
  revert acc. induction items as [|item items IH]; intros acc; simpl; [done|].
  destruct (dynamodbattribute.UnmarshalMap item) as [a|e'] eqn:Hitem.
  - intros (-> & good & bad & rest & -> & Hgood & Hbad)%IH. split; [done|].
    exists (item :: good), bad, rest. repeat split; try done.
    constructor; [by exists a|done].
  - intros [= <- <-]. split; [done|]. by exists [], item, items.
Qed.

(** X7. [GetArticles] returns all of the scan response or nothing. With a
    nil error the slice is non-nil and holds the decoding of every item the
    scan handed back, in the response's order. With an error the slice is
    nil, and the error is the one the scan request met or the decode error of
    the first item that does not decode; the items decoded before it are
    dropped. *)
Theorem GetArticles_all_or_nothing
    (db : dynamodbClient) (w w1 : World)
    (r : option (list Article)) (err : option error) :
  GetArticles db w = Returned (r, err) w1 →
  match err with
  | None => ∃ arts, r = Some arts ∧ Forall2 decodes_to (scan_items w) arts
  | Some e =>
      r = None ∧
      (next_fault w = Some e ∨
       ∃ good item rest,
         scan_items w = (good ++ item :: rest)%list ∧
         Forall (λ it, ∃ a, decodes_to it a) good ∧
         dynamodbattribute.UnmarshalMap item = inr e)
  end.
Proof.
  rewrite GetArticles_run. destruct (next_fault w) as [e|].
  { intros [= <- <- _]. auto. }
  intros [= Hrange _]. destruct err as [e|].
  - apply GetArticles_range_error in Hrange as [-> Hfirst]. auto.
  - destruct (GetArticles_range_cases (scan_items w) []) as [[arts Ha]|[e He]];
      [|congruence].
    rewrite Ha in Hrange. injection Hrange as <-.
    apply GetArticles_range_Some in Ha as (ds & -> & Hds). by exists ds.
Qed.

Lemma GetArticles_all_or_nothing_witness :
  ∃ w1, GetArticles db0 w_bad
          = Returned (None, Some (UnmarshalTypeError "list" "string")) w1.
Proof.
  exists (final (GetArticles db0 w_bad)).
  assert (Hrun : GetArticles db0 w_bad
                 = Returned (None, Some (UnmarshalTypeError "list" "string"))
                     (final (GetArticles db0 w_bad))) by (by vm_compute).
  by destruct (GetArticles_all_or_nothing db0 w_bad _ _ _ Hrun) as [_ _].
Defined.

(** ** No panic *)

(** X8. Apart from [GetArticlesByTag], every method comes back to its
    caller in every world, for a nil argument as for a live one: none panics
    and none exits. In particular the [*articles] of [GetArticlesByAuthor]
    and [DeleteArticleAll] never meets a nil pointer, and [UpdateArticle] on
    a nil argument fails at the put before it reads [article.ArticleID]. *)
Theorem methods_always_return
    (db : dynamodbClient) (article : ptr) (id : string) (w : World) :
  valid_ptr article w →
  returns (CreateArticle db article w) ∧
  returns (UpdateArticle db article w) ∧
  returns (GetArticleByID db id w) ∧
  returns (GetArticles db w) ∧
  returns (GetArticlesByAuthor db id w) ∧
  returns (DeleteArticle db id w) ∧
  returns (DeleteArticleAll db w).
Proof.
  intros Hvalid. unfold returns.
  assert (Hget : ∀ id' w', ∃ a w'', GetArticleByID db id' w' = Returned a w'').
  { intros id' w'. rewrite GetArticleByID_run. eauto. }
  split; [|split; [|split; [done|split; [|split; [|split]]]]].
  - destruct article as [p|]; [|rewrite CreateArticle_nil_run; eauto].
    destruct Hvalid as [A Hp]. rewrite (CreateArticle_run _ _ _ _ Hp).
    destruct (next_fault w); [eauto|]. case_decide; eauto.
  - destruct article as [p|]; [|rewrite UpdateArticle_nil_run; eauto].
    destruct Hvalid as [A Hp].
    rewrite (UpdateArticle_run _ _ _ _ Hp), (CreateArticle_run _ _ _ _ Hp).
    destruct (next_fault w); [eauto|]. case_decide; eauto.
  - rewrite GetArticles_run. eauto.
  - unfold GetArticlesByAuthor, mbind, M_bind. rewrite GetArticles_run.
    destruct (next_fault w); [eauto|].
    destruct (GetArticles_range_cases (scan_items w) []) as [[arts ->]|[e ->]];
      eauto.
  - rewrite DeleteArticle_run. simpl.
    destruct (next_fault w); [eauto|]. case_decide; eauto.
  - unfold DeleteArticleAll, mbind, M_bind. rewrite GetArticles_run.
    destruct (next_fault w); [eauto|].
    destruct (GetArticles_range_cases (scan_items w) []) as [[arts ->]|[e ->]];
      [|eauto].
    destruct (DeleteArticleAll_range_run db arts (dynamodb.sent (scan_request db) w))
      as (w' & -> & _). eauto.
Qed.

Lemma methods_always_return_witness :
  valid_ptr None w0 ∧
  returns (UpdateArticle db0 None w0) ∧ returns (DeleteArticleAll db0 w0).
Proof.
  split; [exact I|].
  destruct (methods_always_return db0 None "a1" w0 I)
    as (_ & Hupdate & _ & _ & _ & _ & Hall).
  by split.
Defined.

(** ** What the writers do to the table *)

(** The table after [CreateArticle], however it ended: as it was, or with
    the marshalled argument put under its id. *)
Lemma CreateArticle_table (db : dynamodbClient) (article : ptr) (w : World) :
  table (final (CreateArticle db article w)) = table w ∨
  ∃ p A, article = Some p ∧ heap w !! p = Some A ∧ ArticleID A ≠ "" ∧
         table (final (CreateArticle db article w))
         = <[ArticleID A := dynamodbattribute.encodeArticle A]> (table w).
Proof.
  destruct article as [p|]; [|left; by rewrite CreateArticle_nil_run].
  destruct (heap w !! p) as [A|] eqn:Hp.
  - rewrite (CreateArticle_run _ _ _ _ Hp).
    destruct (next_fault w); [by left|]. case_decide; [by left|].
    right. by exists p, A.
  - left. unfold CreateArticle, MarshalMap_ptr, load, mbind, M_bind.
    by rewrite Hp.
Qed.

Lemma UpdateArticle_table (db : dynamodbClient) (article : ptr) (w : World) :
  table (final (UpdateArticle db article w)) = table w ∨
  ∃ p A, article = Some p ∧ heap w !! p = Some A ∧ ArticleID A ≠ "" ∧
         table (final (UpdateArticle db article w))
         = <[ArticleID A := dynamodbattribute.encodeArticle A]> (table w).
Proof.
  destruct article as [p|]; [|left; by rewrite UpdateArticle_nil_run].
  destruct (heap w !! p) as [A|] eqn:Hp.
  - rewrite (UpdateArticle_run _ _ _ _ Hp), (CreateArticle_run _ _ _ _ Hp).
    destruct (next_fault w); [by left|]. case_decide; [by left|].
    right. exists p, A. by rewrite GetArticleByID_run.
  - left. unfold UpdateArticle, MarshalMap_ptr, load, mbind, M_bind.
    by rewrite Hp.
Qed.

Lemma DeleteArticle_table (db : dynamodbClient) (id : string) (w : World) :
  table (final (DeleteArticle db id w)) = table w ∨
  table (final (DeleteArticle db id w)) = delete id (table w).
Proof.
  rewrite DeleteArticle_run. simpl.
  destruct (next_fault w); [by left|]. case_decide; [by left|by right].
Qed.

Lemma keyed_insert (t : gmap string Item) (A : Article) :
  keyed t → ArticleID A ≠ "" →
  keyed (<[ArticleID A := dynamodbattribute.encodeArticle A]> t).
Proof.
  intros Ht Hid k item [[<- <-]|[_ Hk]]%lookup_insert_Some; [by exists A|].
  by apply Ht.
Qed.

Lemma keyed_shrink (t t' : gmap string Item) :
  keyed t → (∀ k, t' !! k = None ∨ t' !! k = t !! k) → keyed t'.
Proof.
  intros Ht Hsub k item Hk. apply Ht.
  destruct (Hsub k) as [Hnone|<-]; [congruence|done].
Qed.

(** X9. The writers keep the table's invariant: if every item is a
    marshalled article stored under its own non-empty id, the same holds
    after [CreateArticle], [UpdateArticle], [DeleteArticle] and
    [DeleteArticleAll], however they end. A table that only these methods
    wrote to therefore never holds an item with an empty or missing key. *)
Theorem writers_keep_table_keyed
    (db : dynamodbClient) (article : ptr) (id : string) (w : World) :
  keyed (table w) →
  keyed (table (final (CreateArticle db article w))) ∧
  keyed (table (final (UpdateArticle db article w))) ∧
  keyed (table (final (DeleteArticle db id w))) ∧
  keyed (table (final (DeleteArticleAll db w))).
Proof.
  intros Hkeyed. split; [|split; [|split]].
  - destruct (CreateArticle_table db article w)
      as [->|(p & A & _ & _ & Hid & ->)]; [done|by apply keyed_insert].
  - destruct (UpdateArticle_table db article w)
      as [->|(p & A & _ & _ & Hid & ->)]; [done|by apply keyed_insert].
  - destruct (DeleteArticle_table db id w) as [->| ->]; [done|].
    apply (keyed_shrink (table w)); [done|]. intros k.
    destruct (decide (k = id)) as [->|Hk].
    + left. apply lookup_delete_eq.
    + right. by apply lookup_delete_ne.
  - unfold DeleteArticleAll, mbind, M_bind. rewrite GetArticles_run.
    destruct (next_fault w); [done|].
    destruct (GetArticles_range_cases (scan_items w) []) as [[arts ->]|[e ->]];
      [|done].
    destruct (DeleteArticleAll_range_run db arts (dynamodb.sent (scan_request db) w))
      as (w' & -> & _ & _ & _ & Htable). simpl.
    apply (keyed_shrink (table w)); [done|]. intros k. rewrite Htable.
    case_decide; auto.
Qed.

Lemma keyed_w_two : keyed (table w_two).
Proof.
  intros k item Hk. simpl in Hk.
  apply lookup_insert_Some in Hk as [[<- <-]|[_ Hk]]; [by exists a1|].
  apply lookup_singleton_Some in Hk as [<- <-]. by exists a2.
Qed.

Lemma writers_keep_table_keyed_witness :
  keyed (table w_two) ∧
  keyed (table (final (DeleteArticle db0 "a1" w_two))) ∧
  keyed (table (final (DeleteArticleAll db0 w_two))).
Proof.
  split; [exact keyed_w_two|].
  destruct (writers_keep_table_keyed db0 None "a1" w_two keyed_w_two)
    as (_ & _ & Hdelete & Hall).
  by split.
Defined.

(** X10. A writer touches one key only: [CreateArticle] and
    [UpdateArticle] leave every item under another id than their argument's
    as it was, and [DeleteArticle] every item under another id than the one
    it was given, however they end. *)
Theorem writers_touch_one_key
    (db : dynamodbClient) (w : World) (p : loc) (A : Article) (id k : string) :
  heap w !! p = Some A →
  (k ≠ ArticleID A →
   table (final (CreateArticle db (Some p) w)) !! k = table w !! k ∧
   table (final (UpdateArticle db (Some p) w)) !! k = table w !! k) ∧
  (k ≠ id → table (final (DeleteArticle db id w)) !! k = table w !! k).
Proof.
  intros Hp. split.
  - intros Hk. split.
    + destruct (CreateArticle_table db (Some p) w)
        as [->|(p' & A' & [= <-] & Hp' & _ & ->)]; [done|].
      rewrite Hp in Hp'. injection Hp' as <-. by rewrite lookup_insert_ne.
    + destruct (UpdateArticle_table db (Some p) w)
        as [->|(p' & A' & [= <-] & Hp' & _ & ->)]; [done|].
      rewrite Hp in Hp'. injection Hp' as <-. by rewrite lookup_insert_ne.
  - intros Hk. destruct (DeleteArticle_table db id w) as [->| ->]; [done|].
    by rewrite lookup_delete_ne.
Qed.

Lemma writers_touch_one_key_witness :
  heap w_old !! 0 = Some a1' ∧
  table (final (CreateArticle db0 (Some 0) w_old)) !! "a2" = table w_old !! "a2" ∧
  table (final (UpdateArticle db0 (Some 0) w_old)) !! "a2" = table w_old !! "a2" ∧
  table (final (DeleteArticle db0 "a1" w_old)) !! "a2" = table w_old !! "a2".
Proof.
  split; [reflexivity|].
  destruct (writers_touch_one_key db0 w_old 0 a1' "a1" "a2" eq_refl)
    as [Hwrite Hdelete].
  assert (Hne : "a2" ≠ "a1") by done.
  destruct (Hwrite Hne) as [Hcreate Hupdate].
  split; [exact Hcreate|]. split; [exact Hupdate|]. exact (Hdelete Hne).
Defined.

(** ** Composing the methods *)

Lemma encodeArticle_inj (a b : Article) :
  dynamodbattribute.encodeArticle a = dynamodbattribute.encodeArticle b → a = b.
Proof.
  intros Heq. pose proof (UnmarshalMap_MarshalMap a) as Ha.
  rewrite Heq, UnmarshalMap_MarshalMap in Ha. by injection Ha.
Qed.

Lemma keyed_stored_articles (t : gmap string Item) : keyed t → stored_articles t.
Proof. intros Ht k item Hk. destruct (Ht k item Hk) as (a & -> & _). by exists a. Qed.

Lemma stored_articles_insert (t : gmap string Item) (k : string) (A : Article) :
  stored_articles t →
  stored_articles (<[k := dynamodbattribute.encodeArticle A]> t).
Proof.
  intros Ht k' item [[_ <-]|[_ Hk]]%lookup_insert_Some; [by exists A|].
  by eapply Ht.
Qed.

(** On a table of stored articles a listing whose scan goes through returns
    the articles of the scanned items. *)
Lemma GetArticles_listing (db : dynamodbClient) (w : World) :
  stored_articles (table w) →
  next_fault w = None →
  ∃ arts, GetArticles db w
          = Returned (Some arts, None) (dynamodb.sent (scan_request db) w) ∧
          dynamodbattribute.encodeArticle <$> arts = dynamodb.scanned w.
Proof.
  intros Hstored Hfault.
  destruct (stored_articles_scanned w Hstored) as [arts Harts].
  exists arts. rewrite GetArticles_run, Hfault. unfold scan_items.
  by rewrite Harts, scan_items_encoded, GetArticles_range_encoded.
Qed.

Lemma scanned_in_table (w : World) (item : Item) :
  item ∈ dynamodb.scanned w → ∃ k, table w !! k = Some item.
Proof.
  unfold dynamodb.scanned. intros Hin%subseteq_take.
  apply list_elem_of_fmap in Hin as ([k item'] & -> & Hin).
  exists k. by apply elem_of_map_to_list.
Qed.

Lemma table_in_scanned (w : World) (k : string) (item : Item) :
  (size (table w) ≤ scan_page w)%nat →
  table w !! k = Some item → item ∈ dynamodb.scanned w.
Proof.
  intros Hfits Hk. unfold dynamodb.scanned.
  rewrite take_ge by (by rewrite length_fmap, length_map_to_list).
  apply list_elem_of_fmap. exists (k, item). split; [done|].
  by apply elem_of_map_to_list.
Qed.

Lemma deleted_no_faults (ids : list string) (id : string) :
  id ∈ ids → id ≠ "" → id ∈ deleted ids [].
Proof.
  intros Hin Hid. induction Hin as [id ids|id id' ids Hin IH]; cbn [deleted].
  - rewrite decide_True by done. by left.
  - apply elem_of_app. right. by apply IH.
Qed.

(** X11. With no request failing, on a table whose items are stored under
    their own ids and fit in one scan response, [DeleteArticleAll] empties
    the table, and the [GetArticles] after it returns the empty slice and no
    error. *)
Theorem DeleteArticleAll_then_GetArticles_empty (db : dynamodbClient) (w : World) :
  keyed (table w) →
  faults w = [] →
  (size (table w) ≤ scan_page w)%nat →
  ∃ w1, DeleteArticleAll db w = Returned None w1 ∧
        table w1 = ∅ ∧
        ∃ w2, GetArticles db w1 = Returned (Some [], None) w2.
Proof.
  intros Hkeyed Hfaults Hfits.
  assert (Hfault : next_fault w = None) by (unfold next_fault; by rewrite Hfaults).
  destruct (GetArticles_listing db w (keyed_stored_articles _ Hkeyed) Hfault)
    as (arts & Hlist & Harts).
  unfold DeleteArticleAll, mbind, M_bind. rewrite Hlist.
  destruct (DeleteArticleAll_range_run db arts (dynamodb.sent (scan_request db) w))
    as (w1 & -> & _ & _ & Hfs & Htable).
  simpl in Hfs, Htable. rewrite Hfaults in Hfs, Htable. simpl in Hfs, Htable.
  rewrite drop_nil in Hfs.
  assert (Hempty : table w1 = ∅).
  { apply map_eq. intros k. rewrite Htable, lookup_empty. case_decide; [done|].
    destruct (table w !! k) as [item|] eqn:Hk; [|done].
    destruct (Hkeyed k item Hk) as (a & -> & <- & Hid).
    exfalso. apply H, deleted_no_faults; [|done].
    apply (table_in_scanned w _ _ Hfits) in Hk. rewrite <- Harts in Hk.
    apply list_elem_of_fmap in Hk as (a' & ->%encodeArticle_inj & Ha').
    by apply list_elem_of_fmap_2. }
  exists w1. split; [done|]. split; [done|].
  rewrite GetArticles_run. unfold next_fault, scan_items, dynamodb.scanned.
  rewrite Hfs, Hempty, map_to_list_empty. simpl. rewrite take_nil. simpl. eauto.
Qed.

Lemma DeleteArticleAll_then_GetArticles_empty_witness :
  keyed (table w_two) ∧ size (table w_two) = 2 ∧
  ∃ w1, DeleteArticleAll db0 w_two = Returned None w1 ∧ table w1 = ∅.
Proof.
  assert (Hsize : size (table w_two) = 2) by (by vm_compute).
  assert (Hfits : (size (table w_two) ≤ scan_page w_two)%nat)
    by (rewrite Hsize; simpl; lia).
  split; [exact keyed_w_two|]. split; [exact Hsize|].
  destruct (DeleteArticleAll_then_GetArticles_empty db0 w_two keyed_w_two eq_refl Hfits)
    as (w1 & Hrun & Hempty & _).
  exists w1. split; [exact Hrun|exact Hempty].
Defined.

(** X12. An article that [CreateArticle] persisted is found by the
    listings: on a table of stored articles that fits in one scan response,
    with the scan going through, the [GetArticles] after the create returns
    the article among its results, and so does [GetArticlesByAuthor] for the
    article's author id. *)
Theorem created_article_is_listed
    (db : dynamodbClient) (w w1 : World) (p : loc) (A : Article) (r : ptr) :
  heap w !! p = Some A →
  stored_articles (table w) →
  CreateArticle db (Some p) w = Returned (r, None) w1 →
  next_fault w1 = None →
  (size (table w1) ≤ scan_page w1)%nat →
  (∃ arts w2, GetArticles db w1 = Returned (Some arts, None) w2 ∧ A ∈ arts) ∧
  (∃ res w2, GetArticlesByAuthor db (ID (Author A)) w1
             = Returned (Some res, None) w2 ∧ A ∈ res).
Proof.
  intros Hp Hstored Hcreate Hfault Hfits.
  rewrite (CreateArticle_run _ _ _ _ Hp) in Hcreate.
  destruct (next_fault w); [done|]. case_decide as Hid; [done|].
  assert (Htable : table w1 = <[ArticleID A := dynamodbattribute.encodeArticle A]> (table w))
    by (by injection Hcreate as _ <-).
  clear Hcreate.
  assert (Hstored1 : stored_articles (table w1))
    by (rewrite Htable; by apply stored_articles_insert).
  destruct (GetArticles_listing db w1 Hstored1 Hfault) as (arts & Hlist & Harts).
  assert (HA : A ∈ arts).
  { assert (Hin : dynamodbattribute.encodeArticle A ∈ dynamodb.scanned w1).
    { apply (table_in_scanned w1 (ArticleID A)); [done|].
      rewrite Htable. apply lookup_insert_eq. }
    rewrite <- Harts in Hin.
    by apply list_elem_of_fmap in Hin as (a' & <-%encodeArticle_inj & Ha'). }
  split; [by eexists _, _|].
  unfold GetArticlesByAuthor, mbind, M_bind. rewrite Hlist. simpl.
  eexists _, _. split; [done|].
  rewrite GetArticlesByAuthor_range_filter. simpl.
  by apply list_elem_of_filter.
Qed.

Lemma created_article_is_listed_witness :
  heap w_old !! 0 = Some a1' ∧ stored_articles (table w_old) ∧
  ∃ res w2, GetArticlesByAuthor db0 "u2" (final (CreateArticle db0 (Some 0) w_old))
            = Returned (Some res, None) w2 ∧ a1' ∈ res.
Proof.
  assert (Hstored : stored_articles (table w_old)).
  { intros k item Hk. simpl in Hk.
    apply lookup_singleton_Some in Hk as [_ <-]. by exists a1. }
  split; [reflexivity|]. split; [exact Hstored|].
  assert (Hcreate : CreateArticle db0 (Some 0) w_old
                    = Returned (Some 0, None) (final (CreateArticle db0 (Some 0) w_old)))
    by reflexivity.
  assert (Hfault : next_fault (final (CreateArticle db0 (Some 0) w_old)) = None)
    by reflexivity.
  assert (Hsize : size (table (final (CreateArticle db0 (Some 0) w_old))) = 1)
    by (by vm_compute).
  assert (Hfits : (size (table (final (CreateArticle db0 (Some 0) w_old)))
                   ≤ scan_page (final (CreateArticle db0 (Some 0) w_old)))%nat)
    by (rewrite Hsize; change (1 ≤ 100)%nat; lia).
  exact (proj2 (created_article_is_listed db0 w_old _ 0 a1' (Some 0)
                  eq_refl Hstored Hcreate Hfault Hfits)).
Defined.

(** X13. An article that [DeleteArticle] removed is not listed any more:
    on a table whose items are stored under their own ids, after a
    [DeleteArticle] of [id] that returned nil, no article a [GetArticles]
    returns has that id. *)
Theorem deleted_article_is_not_listed
    (db : dynamodbClient) (id : string) (w w1 w2 : World) (arts : list Article) :
  keyed (table w) →
  DeleteArticle db id w = Returned None w1 →
  GetArticles db w1 = Returned (Some arts, None) w2 →
  ∀ a, a ∈ arts → ArticleID a ≠ id.
Proof.
  intros Hkeyed Hdelete Hlist a Ha.
  rewrite DeleteArticle_run in Hdelete. simpl in Hdelete.
  destruct (next_fault w); [done|]. case_decide; [done|].
  assert (Htable : table w1 = delete id (table w)) by (by injection Hdelete as <-).
  clear Hdelete.
  assert (Hkeyed1 : keyed (table w1)).
  { apply (keyed_shrink (table w)); [done|]. intros k. rewrite Htable.
    destruct (decide (k = id)) as [->|Hk].
    - left. apply lookup_delete_eq.
    - right. by apply lookup_delete_ne. }
  destruct (next_fault w1) as [e|] eqn:Hfault.
  { rewrite GetArticles_run, Hfault in Hlist. done. }
  destruct (GetArticles_listing db w1 (keyed_stored_articles _ Hkeyed1) Hfault)
    as (arts' & Hlist' & Harts).
  rewrite Hlist' in Hlist. injection Hlist as -> _.
  apply (list_elem_of_fmap_2 dynamodbattribute.encodeArticle) in Ha.
  rewrite Harts in Ha. apply scanned_in_table in Ha as [k Hk].
  destruct (Hkeyed1 k _ Hk) as (a' & <-%encodeArticle_inj & <- & _).
  intros Heq. by rewrite Heq, Htable, lookup_delete_eq in Hk.
Qed.

Lemma deleted_article_is_not_listed_witness :
  keyed (table w_two) ∧
  ∃ w1 arts w2,
    DeleteArticle db0 "a1" w_two = Returned None w1 ∧
    GetArticles db0 w1 = Returned (Some arts, None) w2 ∧
    arts = [a2] ∧ ∀ a, a ∈ arts → ArticleID a ≠ "a1".
Proof.
  split; [exact keyed_w_two|].
  exists (final (DeleteArticle db0 "a1" w_two)), [a2],
    (final (GetArticles db0 (final (DeleteArticle db0 "a1" w_two)))).
  assert (Hdelete : DeleteArticle db0 "a1" w_two
                    = Returned None (final (DeleteArticle db0 "a1" w_two)))
    by reflexivity.
  assert (Hlist : GetArticles db0 (final (DeleteArticle db0 "a1" w_two))
                  = Returned (Some [a2], None)
                      (final (GetArticles db0 (final (DeleteArticle db0 "a1" w_two)))))
    by (by vm_compute).
  split; [exact Hdelete|]. split; [exact Hlist|]. split; [done|].
  exact (deleted_article_is_not_listed db0 "a1" w_two _ _ _ keyed_w_two Hdelete Hlist).
Defined.

(** ** Listing by tag: return or exit *)

Lemma GetArticlesByTag_range_run (items : list Item) (acc : list Article) (w : World) :
  match GetArticlesByTag_range items acc w with
  | Returned res w' =>
      w' = w ∧ ∃ ds, res = (acc ++ ds)%list ∧ Forall2 decodes_to items ds
  | Exited status output w' =>
      status = 1%Z ∧ w' = w ∧
      ∃ good item rest e,
        items = (good ++ item :: rest)%list ∧
        Forall (λ it, ∃ a, decodes_to it a) good ∧
        dynamodbattribute.UnmarshalMap item = inr e ∧
        output = "Error unmarshaling item: " ++ Error e
  | Panicked _ _ => False
  end.
Proof.
  revert acc. induction items as [|item items IH]; intros acc; simpl.
  - split; [done|]. exists []. by rewrite app_nil_r.
  - destruct (dynamodbattribute.UnmarshalMap item) as [a|e] eqn:Hitem.
    + specialize (IH (acc ++ [a])%list).
      destruct (GetArticlesByTag_range items (acc ++ [a]) w)
        as [res w'|status output w'|]; [| |done].
      * destruct IH as (-> & ds & -> & Hds). split; [done|].
        exists (a :: ds). rewrite <- app_assoc. split; [done|]. by constructor.
      * destruct IH as (-> & -> & good & bad & rest & e & -> & Hgood & Hbad & ->).
        repeat split. exists (item :: good), bad, rest, e.
        repeat split; try done. constructor; [by exists a|done].
    + unfold log_Fatalf. repeat split. by exists [], item, items, e.
Qed.

(** X14. [GetArticlesByTag] ends in one of two ways and never panics. It
    returns, always with a nil error and a non-nil slice, exactly when the
    query goes through and every item it hands back decodes; the slice then
    holds the decoded items in the query's order. Otherwise the process exits
    with status 1, the logged message naming the query error or the decode
    error of the first item that does not decode. *)
Theorem GetArticlesByTag_returns_or_exits
    (db : dynamodbClient) (tag : string) (w : World) :
  match GetArticlesByTag db tag w with
  | Returned (r, err) w1 =>
      err = None ∧ next_fault w = None ∧
      ∃ arts, r = Some arts ∧ Forall2 decodes_to (query_items tag w) arts
  | Exited status output w1 =>
      status = 1%Z ∧
      ((∃ e, next_fault w = Some e ∧ output = "Query error: " ++ Error e) ∨
       (next_fault w = None ∧
        ∃ good item rest e,
          query_items tag w = (good ++ item :: rest)%list ∧
          Forall (λ it, ∃ a, decodes_to it a) good ∧
          dynamodbattribute.UnmarshalMap item = inr e ∧
          output = "Error unmarshaling item: " ++ Error e))
  | Panicked _ _ => False
  end.
Proof.
  unfold GetArticlesByTag, dynamodb.Query. run.
  destruct (next_fault w) as [e|]; [split; [done|]; left; by exists e|].
  simpl. fold (query_items tag w).
  match goal with
  | |- context [GetArticlesByTag_range ?items ?acc ?w'] =>
      pose proof (GetArticlesByTag_range_run items acc w') as Hrange;
      destruct (GetArticlesByTag_range items acc w') as [res w1|status output w1|]
  end; [| |done].
  - destruct Hrange as (_ & ds & -> & Hds). repeat split. by exists ds.
  - destruct Hrange as (-> & _ & Hfirst). split; [done|]. by right.
Qed.

Lemma filter_all_false {A} (f : A → bool) (l : list A) :
  Forall (λ x, f x = false) l → List.filter f l = [].
Proof. induction 1 as [|x l Hx _ IH]; simpl; [done|]. by rewrite Hx. Qed.

Lemma encodeArticle_no_Tag (a : Article) (tag : string) :
  dynamodb.holds (Equal "Tag" tag) (dynamodbattribute.encodeArticle a) = false.
Proof.
  unfold dynamodb.holds, dynamodbattribute.encodeArticle.
  repeat (rewrite lookup_insert_ne by done). by rewrite lookup_empty.
Qed.

(** X15. The tag query does not find what the writers store. A marshalled
    article carries its tags under the attribute [tags] and has no attribute
    [Tag], the one the query's key condition tests; so on a table of stored
    articles, with the query going through, [GetArticlesByTag] returns the
    empty slice for every tag, also for a tag some stored article has. *)
Theorem GetArticlesByTag_misses_stored_articles
    (db : dynamodbClient) (tag : string) (w : World) :
  stored_articles (table w) →
  next_fault w = None →
  ∃ w1, GetArticlesByTag db tag w = Returned (Some [], None) w1.
Proof.
  intros Hstored Hfault.
  assert (Hnone : query_items tag w = []).
  { unfold query_items. rewrite (filter_all_false (dynamodb.holds (Equal "Tag" tag))); [done|].
    apply Forall_fmap, Forall_forall. intros [k item] Hin%elem_of_map_to_list.
    destruct (Hstored k item Hin) as [a ->]. apply encodeArticle_no_Tag. }
  unfold GetArticlesByTag, dynamodb.Query. run. rewrite Hfault. simpl.
  fold (query_items tag w). rewrite Hnone. simpl. eauto.
Qed.

Lemma GetArticlesByTag_misses_stored_articles_witness :
  stored_articles (table w_two) ∧ Tags a1 = ["go"; "db"] ∧
  ∃ w1, GetArticlesByTag db0 "go" w_two = Returned (Some [], None) w1.
Proof.
  split; [exact stored_articles_w_two|]. split; [reflexivity|].
  exact (GetArticlesByTag_misses_stored_articles db0 "go" w_two
           stored_articles_w_two eq_refl).
Defined.

(** ** Listing: items the filter drops *)



(** ** The heap: allocation only *)

(** X17. No method writes to a cell of the heap that exists. Six of them
    allocate nothing and leave the heap as it was; [GetArticleByID] appends
    exactly one cell; [UpdateArticle] appends at most one. So a record a
    caller holds a pointer to is never changed by a later call. *)
Theorem methods_only_allocate
    (db : dynamodbClient) (article : ptr) (id tag : string) (w : World) :
  heap (final (CreateArticle db article w)) = heap w ∧
  heap (final (DeleteArticle db id w)) = heap w ∧
  heap (final (DeleteArticleAll db w)) = heap w ∧
  heap (final (GetArticles db w)) = heap w ∧
  heap (final (GetArticlesByAuthor db id w)) = heap w ∧
  heap (final (GetArticlesByTag db tag w)) = heap w ∧
  (∃ a, heap (final (GetArticleByID db id w)) = (heap w ++ [a])%list) ∧
  (heap (final (UpdateArticle db article w)) = heap w ∨
   ∃ a, heap (final (UpdateArticle db article w)) = (heap w ++ [a])%list).
Proof.
  repeat split.
  - destruct article as [p|]; [|by rewrite CreateArticle_nil_run].
    destruct (heap w !! p) as [A|] eqn:Hp.
    + rewrite (CreateArticle_run _ _ _ _ Hp).
      destruct (next_fault w); [done|]. by case_decide.
    + unfold CreateArticle, MarshalMap_ptr, load, mbind, M_bind. by rewrite Hp.
  - rewrite DeleteArticle_run. simpl.
    destruct (next_fault w); [done|]. by case_decide.
  - unfold DeleteArticleAll, mbind, M_bind. rewrite GetArticles_run.
    destruct (next_fault w); [done|].
    destruct (GetArticles_range_cases (scan_items w) []) as [[arts ->]|[e ->]];
      [|done].
    destruct (DeleteArticleAll_range_run db arts (dynamodb.sent (scan_request db) w))
      as (w' & -> & Hheap & _).
    simpl. by rewrite Hheap.
  - by rewrite GetArticles_run.
  - unfold GetArticlesByAuthor, mbind, M_bind. rewrite GetArticles_run.
    destruct (next_fault w); [done|].
    by destruct (GetArticles_range_cases (scan_items w) []) as [[arts ->]|[e ->]].
  - unfold GetArticlesByTag, dynamodb.Query. run.
    destruct (next_fault w); [done|]. simpl.
    match goal with
    | |- context [GetArticlesByTag_range ?items ?acc ?w'] =>
        pose proof (GetArticlesByTag_range_final items acc w') as Hfinal;
        destruct (GetArticlesByTag_range items acc w')
    end; simpl in *; by subst.
  - rewrite GetArticleByID_run. simpl. eauto.
  - destruct article as [p|]; [|left; by rewrite UpdateArticle_nil_run].
    destruct (heap w !! p) as [A|] eqn:Hp.
    + rewrite (UpdateArticle_run _ _ _ _ Hp), (CreateArticle_run _ _ _ _ Hp).
      destruct (next_fault w); [by left|]. case_decide; [by left|].
      right. rewrite GetArticleByID_run. simpl. eauto.
    + left. unfold UpdateArticle, MarshalMap_ptr, load, mbind, M_bind.
      by rewrite Hp.
Qed.

(** ** Upsert and repeated delete *)

(** X18. [UpdateArticle] makes no existence check: whatever the table holds,
    an article with a non-empty id is written and read back as soon as the
    put and the get after it go through. Updating an id that was never
    created creates it. *)
Theorem UpdateArticle_upserts
    (db : dynamodbClient) (w : World) (p : loc) (A : Article) :
  heap w !! p = Some A →
  ArticleID A ≠ "" →
  next_fault w = None →
  next_fault (set_faults (tail (faults w)) w) = None →
  ∃ q w1, UpdateArticle db (Some p) w = Returned (Some q, None) w1 ∧
          heap w1 !! q = Some A ∧
          table w1 !! ArticleID A = Some (dynamodbattribute.encodeArticle A).
Proof.
  intros Hp Hid Hput Hget.
  rewrite (UpdateArticle_run _ _ _ _ Hp), (CreateArticle_run _ _ _ _ Hp), Hput.
  rewrite decide_False by done.
  rewrite GetArticleByID_run. unfold GetArticleByID_result.
  change (next_fault (set_table _ (dynamodb.sent _ w)))
    with (next_fault (set_faults (tail (faults w)) w)).
  rewrite Hget, decide_False by done. simpl.
  rewrite lookup_insert_eq, UnmarshalMap_MarshalMap. simpl.
  eexists _, _. split; [done|]. simpl.
  split; [apply lookup_alloc|apply lookup_insert_eq].
Qed.

Lemma UpdateArticle_upserts_witness :
  table w0 !! "a1" = None ∧
  ∃ q w1, UpdateArticle db0 (Some 0) w0 = Returned (Some q, None) w1 ∧
          heap w1 !! q = Some a1 ∧
          table w1 !! "a1" = Some (dynamodbattribute.encodeArticle a1).
Proof.
  split; [reflexivity|].
  apply (UpdateArticle_upserts db0 w0 0 a1); [reflexivity|by vm_compute|reflexivity..].
Defined.

(** X19. Deleting twice is deleting once: after a [DeleteArticle] of [id]
    that returned nil, a second one whose request goes through returns nil
    again and leaves the table as the first left it. *)
Theorem DeleteArticle_twice
    (db : dynamodbClient) (id : string) (w w1 : World) :
  DeleteArticle db id w = Returned None w1 →
  next_fault w1 = None →
  ∃ w2, DeleteArticle db id w1 = Returned None w2 ∧ table w2 = table w1.
Proof.
  intros Hfirst Hfault. rewrite DeleteArticle_run in Hfirst. simpl in Hfirst.
  destruct (next_fault w); [done|]. case_decide as Hid; [done|].
  injection Hfirst as <-. rewrite DeleteArticle_run. cbn zeta.
  rewrite Hfault, decide_False by done. eexists. split; [done|]. simpl.
  apply delete_id, lookup_delete_eq.
Qed.

Lemma DeleteArticle_twice_witness :
  ∃ w1 w2, DeleteArticle db0 "a1" w_two = Returned None w1 ∧
           DeleteArticle db0 "a1" w1 = Returned None w2 ∧
           table w2 = table w1.
Proof.
  assert (Hfirst : DeleteArticle db0 "a1" w_two
                   = Returned None (final (DeleteArticle db0 "a1" w_two)))
    by reflexivity.
  destruct (DeleteArticle_twice db0 "a1" w_two _ Hfirst eq_refl) as (w2 & Hrun & Htable).
  exists (final (DeleteArticle db0 "a1" w_two)), w2.
  split; [exact Hfirst|]. split; [exact Hrun|exact Htable].
Defined.
